(** * Embedded chat agent: relay endpoint and conversation controller

    A shallow embedding of the two code paths of the repository that carry
    logic:

    - [src/pages/api/proxy.js]: the serverless relay [handler];
    - the chat component ([getSessionId], [getUserId], [submitMessage],
      [handleSubmit], [handlePromptClick] and the submit control of
      [AgentComponent]), together with the earlier stand-alone version of
      the component whose [handleSubmit] does the whole turn itself.

    JavaScript values are modelled as the code sees them: strings are
    sequences of UTF-16 code units (so [length] is the [.length] of the
    source), JSON documents are a tree type, promises that may reject are
    sums, and React state is a record updated by its setters. *)

From Stdlib Require Import NArith ZArith QArith_base List String Ascii Decimal
  DecimalN.
From stdpp Require Import gmap list.

Set Default Proof Using "Type".
Set Warnings "-register-all".
Local Open Scope N_scope.

(** ** JavaScript strings *)

Module JS.

(** A string is its sequence of UTF-16 code units. *)
Abbreviation jstring := (list N).

(** Source literals are all ASCII; [js "..."] spells one out. *)
Definition js (s : string) : jstring :=
  map N_of_ascii (list_ascii_of_string s).

(** ECMAScript [WhiteSpace] and [LineTerminator] code points, the ones
    [String.prototype.trim] strips. *)
Definition isWhiteSpace (c : N) : bool :=
  (c =? 0x09) || (c =? 0x0A) || (c =? 0x0B) || (c =? 0x0C) || (c =? 0x0D)
  || (c =? 0x20) || (c =? 0xA0) || (c =? 0x1680)
  || ((0x2000 <=? c) && (c <=? 0x200A))
  || (c =? 0x2028) || (c =? 0x2029) || (c =? 0x202F) || (c =? 0x205F)
  || (c =? 0x3000) || (c =? 0xFEFF).

Fixpoint trimStart (s : jstring) : jstring :=
  match s with
  | c :: s' => if isWhiteSpace c then trimStart s' else s
  | [] => []
  end.

Definition trimEnd (s : jstring) : jstring :=
  reverse (trimStart (reverse s)).

(** [s.trim()] *)
Definition trim (s : jstring) : jstring := trimEnd (trimStart s).

(** Nothing but white space (the empty string included). *)
Definition blank (s : jstring) : Prop :=
  Forall (λ c, isWhiteSpace c = true) s.

(** Truthiness of a string: only the empty string is falsy. *)
Definition truthy_string (s : jstring) : bool :=
  match s with [] => false | _ :: _ => true end.

(** [`${n}`] for a non-negative integer [n]: its decimal digits. *)
Fixpoint digits (d : Decimal.uint) : jstring :=
  match d with
  | Nil => []
  | D0 d => 48 :: digits d | D1 d => 49 :: digits d | D2 d => 50 :: digits d
  | D3 d => 51 :: digits d | D4 d => 52 :: digits d | D5 d => 53 :: digits d
  | D6 d => 54 :: digits d | D7 d => 55 :: digits d | D8 d => 56 :: digits d
  | D9 d => 57 :: digits d
  end.

Definition toString (n : N) : jstring := digits (N.to_uint n).

(** [hay.includes(needle)], as a proposition. *)
Definition includes (hay needle : jstring) : Prop :=
  exists pre suf, hay = pre ++ needle ++ suf.

(** ** JSON values

    What [JSON.parse] produces.  An object is the list of its own
    properties; a number is a rational (only its being zero is ever
    inspected). *)
Inductive json : Type :=
  | JNull
  | JBool (b : bool)
  | JNum (q : Q)
  | JStr (s : jstring)
  | JArr (l : list json)
  | JObj (props : list (jstring * json)).

(** A JavaScript value read out of a JSON document: a JSON value or
    [undefined]. *)
Abbreviation value := (option json).
Abbreviation undefined := (@None json).

(** ToBoolean. *)
Definition truthy (v : value) : bool :=
  match v with
  | None => false
  | Some JNull => false
  | Some (JBool b) => b
  | Some (JNum q) => negb (Qnum q =? 0)%Z
  | Some (JStr s) => truthy_string s
  | Some (JArr _) => true
  | Some (JObj _) => true
  end.

Fixpoint own_property (props : list (jstring * json)) (k : jstring) : value :=
  match props with
  | [] => undefined
  | (k', v) :: props' =>
      if decide (k' = k) then Some v else own_property props' k
  end.

(** The member [k] of a JSON document, if the document is an object
    that has one.  Used to state what a document contains. *)
Definition field (v : value) (k : jstring) : value :=
  match v with
  | Some (JObj props) => own_property props k
  | _ => undefined
  end.

(** An exception object; only its [message] is ever read. *)
Record Error := mkError { Error_message : jstring }.

(** A computation that may throw. *)
Definition result (A : Type) : Type := Error + A.

Definition ret {A} (a : A) : result A := inr a.
Definition throw {A} (e : Error) : result A := inl e.

(** Sequencing: a throw skips the rest (stdpp's [x ← m; k]). *)
#[global] Instance result_bind : MBind result := fun A B k m =>
  match m with
  | inl e => inl e
  | inr a => k a
  end.

(** [v.k] for a property name [k] that no built-in prototype defines
    (the two names the component reads, [output_data] and [content], are
    such names): reading a property of [null] or [undefined] throws a
    [TypeError] (message as V8 words it), an object yields its own
    property, every other value yields [undefined]. *)
Definition get (v : value) (k : jstring) : result value :=
  match v with
  | None =>
      throw (mkError (js "Cannot read properties of undefined (reading '"
                        ++ k ++ js "')"))
  | Some JNull =>
      throw (mkError (js "Cannot read properties of null (reading '"
                        ++ k ++ js "')"))
  | Some (JObj props) => ret (own_property props k)
  | Some _ => ret undefined
  end.

(** ** The fetch API *)

(** The argument of a [fetch] call.  The body is the JSON document that
    [JSON.stringify] serialises; the receiving side's body parser gives
    the same document back, so the wire text itself is not modelled. *)
Record Request := mkRequest {
  url : jstring;
  method : jstring;
  headers : gmap jstring jstring;
  body : value;
}.

(** A received response: its status and what its two body readers
    resolve to ([await r.text()], [await r.json()]). *)
Record Response := mkResponse {
  status : N;
  text : result jstring;
  json_body : result json;
}.

(** [r.ok]: the status is in the range 200-299. *)
Definition ok (r : Response) : bool :=
  (200 <=? status r) && (status r <=? 299).

(** What [await fetch(...)] does: reject with an error or resolve to a
    response. *)
Abbreviation outcome := (result Response).

End JS.

(** ** The relay endpoint ([src/pages/api/proxy.js]) *)

Module Relay.
Import JS.

(** [chatConfig.flowURL] as configured. *)
Definition chatConfig_flowURL : jstring :=
  js "https://api.zerowidth.ai/v1/process/IocJSfGIqpnNm2SZgjQq/ZTIHyiW164z3XuUqTsFC".

(** The incoming request, as far as the handler reads it. *)
Record NextApiRequest := mkReq {
  req_method : jstring;
  req_body : value;
}.

(** What has been written to the response so far. *)
Inductive Sent : Type :=
  | NotSent
  | Ended
  | Json (j : json).

(** [res_headers] holds the headers the handler sets itself, under the
    names as the source spells them; what [res.json] and the platform add
    on their own is not recorded. *)
Record NextApiResponse := mkRes {
  res_headers : gmap jstring jstring;
  statusCode : N;
  sent : Sent;
}.

(** A response nothing has been written to yet. *)
Definition fresh : NextApiResponse :=
  {| res_headers := ∅; statusCode := 200; sent := NotSent |}.

Definition setHeader (name v : jstring) (res : NextApiResponse)
  : NextApiResponse :=
  {| res_headers := <[name := v]> (res_headers res);
     statusCode := statusCode res;
     sent := sent res |}.

Definition set_status (code : N) (res : NextApiResponse) : NextApiResponse :=
  {| res_headers := res_headers res; statusCode := code; sent := sent res |}.

Definition send_json (j : json) (res : NextApiResponse) : NextApiResponse :=
  {| res_headers := res_headers res;
     statusCode := statusCode res;
     sent := Json j |}.

Definition send_end (res : NextApiResponse) : NextApiResponse :=
  {| res_headers := res_headers res;
     statusCode := statusCode res;
     sent := Ended |}.

Section Handler.

(** [chatConfig.flowURL], [process.env.ZEROWIDTH_API_KEY] (possibly
    unset) and the network the function runs against. *)
Variable flowURL : jstring.
Variable ZEROWIDTH_API_KEY : option jstring.
Variable fetch : Request -> outcome.

(** [`Bearer ${bearerToken}`] *)
Definition authorization : jstring :=
  js "Bearer " ++ match ZEROWIDTH_API_KEY with
                  | Some token => token
                  | None => js "undefined"
                  end.

(** The call made to the zerowidth API for a request body. *)
Definition upstream_request (requestBody : value) : Request :=
  {| url := flowURL;
     method := js "POST";
     headers := <[js "Authorization" := authorization]>
                  (<[js "Content-Type" := js "application/json"]> ∅);
     body := requestBody |}.

(** The [try] block up to the value handed to [res.status(200).json]. *)
Definition forward (requestBody : value) : result json :=
  response ← fetch (upstream_request requestBody);
  if negb (ok response) then
    errorText ← text response;
    throw (mkError (js "Zerowidth API error " ++ toString (status response)
                      ++ js ": " ++ errorText))
  else
    data ← json_body response;
    ret data.

(** [handler(req, res)]: the response it leaves behind and the upstream
    calls it made. *)
Definition handler (req : NextApiRequest) (res : NextApiResponse)
  : NextApiResponse * list Request :=
  let res := setHeader (js "Access-Control-Allow-Origin") (js "*") res in
  let res := setHeader (js "Access-Control-Allow-Methods")
                       (js "POST, OPTIONS") res in
  let res := setHeader (js "Access-Control-Allow-Headers")
                       (js "Content-Type, Authorization") res in
  if decide (req_method req = js "OPTIONS") then
    (send_end (set_status 200 res), [])
  else if decide (req_method req <> js "POST") then
    (send_json (JObj [(js "error", JStr (js "Method not allowed"))])
               (set_status 405 res), [])
  else
    let requestBody := req_body req in
    match forward requestBody with
    | inr data =>
        (send_json data (set_status 200 res),
         [upstream_request requestBody])
    | inl error =>
        (send_json (JObj [(js "error", JStr (js "Internal Server Error"));
                          (js "details", JStr (Error_message error))])
                   (set_status 500 res),
         [upstream_request requestBody])
    end.

End Handler.

End Relay.

(** ** The chat component *)

Module Agent.
Import JS.

(** *** Session and user identity *)

(** The two Web Storage areas of a browser window. *)
Record Window := mkWindow {
  sessionStorage : gmap jstring jstring;
  localStorage : gmap jstring jstring;
}.

(** [uuid.replace(/-/g, "").slice(0, 32)]: drop every dash (code unit
    45), keep the first 32 code units. *)
Definition fresh_id (uuid : jstring) : jstring :=
  take 32 (filter (λ c, c ≠ 45) uuid).

(** Truthiness of what [getItem] returns ([null] or a string). *)
Definition truthy_item (item : option jstring) : bool :=
  match item with
  | None => false
  | Some s => truthy_string s
  end.

(** [storage.setItem(key, v)] on either area. *)
Definition setSessionItem (key v : jstring) (w : Window) : Window :=
  {| sessionStorage := <[key := v]> (sessionStorage w);
     localStorage := localStorage w |}.

Definition setLocalItem (key v : jstring) (w : Window) : Window :=
  {| sessionStorage := sessionStorage w;
     localStorage := <[key := v]> (localStorage w) |}.

(** [getSessionId()].  [window] is [None] where [typeof window] is
    ["undefined"]; [uuidv4] is what the generator yields if it is called.
    Returns the id and the window with its storage as left behind. *)
Definition getSessionId (uuidv4 : jstring) (window : option Window)
  : jstring * option Window :=
  match window with
  | None => ([], None)
  | Some w =>
      let sessionId := sessionStorage w !! js "sessionId" in
      let sessionId :=
        if truthy_item sessionId
           && (length (default [] sessionId) <=? 32)%nat
        then sessionId else None in
      if negb (truthy_item sessionId) then
        let sessionId := fresh_id uuidv4 in
        (sessionId, Some (setSessionItem (js "sessionId") sessionId w))
      else (default [] sessionId, Some w)
  end.

(** [getUserId()]: the same over [localStorage]. *)
Definition getUserId (uuidv4 : jstring) (window : option Window)
  : jstring * option Window :=
  match window with
  | None => ([], None)
  | Some w =>
      let userId := localStorage w !! js "userId" in
      let userId :=
        if truthy_item userId && (length (default [] userId) <=? 32)%nat
        then userId else None in
      if negb (truthy_item userId) then
        let userId := fresh_id uuidv4 in
        (userId, Some (setLocalItem (js "userId") userId w))
      else (default [] userId, Some w)
  end.

(** *** Conversation state *)

Inductive Role : Type := user | agent.

Definition role_name (r : Role) : jstring :=
  match r with
  | user => js "user"
  | agent => js "agent"
  end.

(** A conversation entry.  The content of an agent entry is whatever
    truthy value the reply carried, so it is a JSON value. *)
Record Message := mkMessage {
  role : Role;
  content : json;
}.

(** The object literal [{ role, content }] as it is serialised. *)
Definition Message_json (m : Message) : json :=
  JObj [(js "role", JStr (role_name (role m))); (js "content", content m)].

(** The [useState] cells of [AgentComponent]. *)
Record State := mkState {
  message : jstring;
  conversation : list Message;
  error : option jstring;
  isLoading : bool;
  sessionId : jstring;
  userId : jstring;
  hoveredIndex : option nat;
  isSubmitHovered : bool;
}.

(** The state of the first render. *)
Definition initialState : State :=
  {| message := []; conversation := []; error := None; isLoading := false;
     sessionId := []; userId := []; hoveredIndex := None;
     isSubmitHovered := false |}.

Definition setMessage (v : jstring) (st : State) : State :=
  {| message := v; conversation := conversation st; error := error st;
     isLoading := isLoading st; sessionId := sessionId st;
     userId := userId st; hoveredIndex := hoveredIndex st;
     isSubmitHovered := isSubmitHovered st |}.

Definition setConversation (f : list Message -> list Message) (st : State)
  : State :=
  {| message := message st; conversation := f (conversation st);
     error := error st; isLoading := isLoading st;
     sessionId := sessionId st; userId := userId st;
     hoveredIndex := hoveredIndex st;
     isSubmitHovered := isSubmitHovered st |}.

Definition setError (v : option jstring) (st : State) : State :=
  {| message := message st; conversation := conversation st; error := v;
     isLoading := isLoading st; sessionId := sessionId st;
     userId := userId st; hoveredIndex := hoveredIndex st;
     isSubmitHovered := isSubmitHovered st |}.

Definition setIsLoading (v : bool) (st : State) : State :=
  {| message := message st; conversation := conversation st;
     error := error st; isLoading := v; sessionId := sessionId st;
     userId := userId st; hoveredIndex := hoveredIndex st;
     isSubmitHovered := isSubmitHovered st |}.

Definition setSessionId (v : jstring) (st : State) : State :=
  {| message := message st; conversation := conversation st;
     error := error st; isLoading := isLoading st; sessionId := v;
     userId := userId st; hoveredIndex := hoveredIndex st;
     isSubmitHovered := isSubmitHovered st |}.

Definition setUserId (v : jstring) (st : State) : State :=
  {| message := message st; conversation := conversation st;
     error := error st; isLoading := isLoading st;
     sessionId := sessionId st; userId := v;
     hoveredIndex := hoveredIndex st;
     isSubmitHovered := isSubmitHovered st |}.

Definition setHoveredIndex (v : option nat) (st : State) : State :=
  {| message := message st; conversation := conversation st;
     error := error st; isLoading := isLoading st;
     sessionId := sessionId st; userId := userId st; hoveredIndex := v;
     isSubmitHovered := isSubmitHovered st |}.

Definition setIsSubmitHovered (v : bool) (st : State) : State :=
  {| message := message st; conversation := conversation st;
     error := error st; isLoading := isLoading st;
     sessionId := sessionId st; userId := userId st;
     hoveredIndex := hoveredIndex st; isSubmitHovered := v |}.

(** The mount effect: [setSessionId(getSessionId());
    setUserId(getUserId())]. *)
Definition mount (uuid1 uuid2 : jstring) (window : option Window)
  (st : State) : State * option Window :=
  let '(sid, window) := getSessionId uuid1 window in
  let '(uid, window) := getUserId uuid2 window in
  (setUserId uid (setSessionId sid st), window).

(** *** Submitting a message *)

(** The text shown when the reply carries no usable content. *)
Definition fallback : json :=
  JStr (js "No valid response received from agent.").

(** [output_data.content] of a response document, if it has one. *)
Definition output_content (data : json) : value :=
  field (field (Some data) (js "output_data")) (js "content").

(** The [payload] object literal of [submitMessage]. *)
Definition payload (userMessage : Message) (st : State) : json :=
  JObj [(js "data", JObj [(js "message", Message_json userMessage)]);
        (js "stateful", JBool true);
        (js "stream", JBool false);
        (js "user_id", JStr (userId st));
        (js "session_id", JStr (sessionId st));
        (js "verbose", JBool false)].

(** The [fetch("/api/proxy", ...)] call for a payload. *)
Definition proxy_request (p : json) : Request :=
  {| url := js "/api/proxy";
     method := js "POST";
     headers := <[js "Content-Type" := js "application/json"]> ∅;
     body := Some p |}.

(** The [userMessage] object literal. *)
Definition userMessage (userInput : jstring) : Message :=
  {| role := user; content := JStr (trim userInput) |}.

(** [submitMessage(userInput)] up to its first [await]: the state it
    leaves and the request it has dispatched, if any. *)
Definition submitMessage_start (userInput : jstring) (st : State)
  : State * option Request :=
  if negb (truthy_string (trim userInput)) then (st, None)
  else
    let st1 := setMessage [] st in
    let st1 := setError None st1 in
    let userMessage := userMessage userInput in
    let st1 := setConversation (λ prev, prev ++ [userMessage]) st1 in
    let p := payload userMessage st in
    let st1 := setIsLoading true st1 in
    (st1, Some (proxy_request p)).

(** [data.output_data && data.output_data.content
      ? data.output_data.content : "No valid response ..."] *)
Definition agentReply (data : json) : result json :=
  output_data ← get (Some data) (js "output_data");
  if truthy output_data then
    content ← get output_data (js "content");
    match content with
    | Some c => if truthy content then ret c else ret fallback
    | None => ret fallback
    end
  else ret fallback.

(** The rest of the [try] block, from the settled [fetch] to the reply. *)
Definition receive (settled : outcome) : result json :=
  res ← settled;
  if negb (ok res) then
    throw (mkError (js "Server error: " ++ toString (status res)))
  else
    data ← json_body res;
    agentReply data.

(** What [submitMessage] does once its request has settled: the rest of
    [try], then [catch], then [finally].  [st] is the state at that
    moment. *)
Definition submitMessage_settle (settled : outcome) (st : State) : State :=
  let st :=
    match receive settled with
    | inr reply =>
        let agentMessage := {| role := agent; content := reply |} in
        let st := setConversation (λ prev, prev ++ [agentMessage]) st in
        setMessage [] st
    | inl err => setError (Some (Error_message err)) st
    end in
  setIsLoading false st.

(** A whole call of [submitMessage] against a network, nothing else
    happening in between: the final state and the requests issued. *)
Definition submitMessage (fetch : Request -> outcome) (userInput : jstring)
  (st : State) : State * list Request :=
  match submitMessage_start userInput st with
  | (st1, Some request) => (submitMessage_settle (fetch request) st1, [request])
  | (st1, None) => (st1, [])
  end.

(** [handleSubmit(e)]: submit the text of the input field. *)
Definition handleSubmit (fetch : Request -> outcome) (st : State)
  : State * list Request :=
  submitMessage fetch (message st) st.

(** [handlePromptClick(prompt)]: fill the input field and leave a
    zero-delay timer that will call [submitMessage(prompt)]. *)
Definition handlePromptClick (prompt : jstring) (st : State)
  : State * jstring :=
  (setMessage prompt st, prompt).

Definition handlePromptMouseOver (index : nat) (st : State) : State :=
  if negb (isLoading st) then setHoveredIndex (Some index) st else st.

Definition handlePromptMouseOut (st : State) : State :=
  setHoveredIndex None st.

(** The [disabled] attribute of the send button and of every suggested
    prompt button. *)
Definition submit_disabled (st : State) : bool := isLoading st.
Definition prompt_disabled (st : State) : bool := isLoading st.

End Agent.

(** *** The component as an event-driven system

    One browser tab: the component state and the requests awaiting
    their response.  Events are delivered one at a time. *)

Module Client.
Import JS Agent.

Record Client := mkClient {
  ui : State;
  timers : list jstring;        (* pending [setTimeout] calls, by prompt *)
  inflight : list Request;      (* fetches awaited *)
}.

Inductive Event : Type :=
  | Typed (text : jstring)          (* [onChange] of the input field *)
  | FormSubmitted                   (* [onSubmit]: send button or Enter *)
  | PromptClicked (prompt : jstring)
  | TimerFired                      (* the oldest zero-delay timer runs *)
  | PromptMouseOver (index : nat)
  | PromptMouseOut
  | SubmitMouseOver
  | SubmitMouseOut
  | Settled (i : nat) (o : outcome) (* the [i]-th awaited fetch settles *).

(** A call of [submitMessage(userInput)] up to its [await]. *)
Definition dispatch (userInput : jstring) (c : Client) : Client :=
  let '(st, request) := submitMessage_start userInput (ui c) in
  {| ui := st;
     timers := timers c;
     inflight := inflight c ++ match request with
                               | Some r => [r]
                               | None => []
                               end |}.

Definition with_ui (st : State) (c : Client) : Client :=
  {| ui := st; timers := timers c; inflight := inflight c |}.

(** One event.  [None]: the page does not deliver this event in this
    state.  A disabled button receives no click, and a form whose submit
    button is disabled is not submitted by Enter either; a timer fires
    only if one is pending, a fetch settles only if it is awaited. *)
Definition step (c : Client) (e : Event) : option Client :=
  match e with
  | Typed text => Some (with_ui (setMessage text (ui c)) c)
  | FormSubmitted =>
      if submit_disabled (ui c) then None
      else Some (dispatch (message (ui c)) c)
  | PromptClicked prompt =>
      if prompt_disabled (ui c) then None
      else
        let '(st, deferred) := handlePromptClick prompt (ui c) in
        Some {| ui := st;
                timers := timers c ++ [deferred];
                inflight := inflight c |}
  | TimerFired =>
      match timers c with
      | deferred :: rest =>
          Some (dispatch deferred
                  {| ui := ui c; timers := rest; inflight := inflight c |})
      | [] => None
      end
  | PromptMouseOver index =>
      Some (with_ui (handlePromptMouseOver index (ui c)) c)
  | PromptMouseOut => Some (with_ui (handlePromptMouseOut (ui c)) c)
  | SubmitMouseOver => Some (with_ui (setIsSubmitHovered true (ui c)) c)
  | SubmitMouseOut => Some (with_ui (setIsSubmitHovered false (ui c)) c)
  | Settled i o =>
      match inflight c !! i with
      | Some _ =>
          Some {| ui := submitMessage_settle o (ui c);
                  timers := timers c;
                  inflight := delete i (inflight c) |}
      | None => None
      end
  end.

Fixpoint run (c : Client) (events : list Event) : option Client :=
  match events with
  | [] => Some c
  | e :: events' =>
      match step c e with
      | Some c' => run c' events'
      | None => None
      end
  end.

(** The order in which the page is taken to deliver events: the
    zero-delay timer of a prompt click runs before anything else
    happens.  [submitMessage] does not consult the busy flag itself, so
    it is this order, together with the disabled buttons, that keeps two
    turns from overlapping. *)
Fixpoint timers_fire_first (events : list Event) : bool :=
  match events with
  | [] => true
  | PromptClicked _ :: events' =>
      match events' with
      | [] => true
      | TimerFired :: events'' => timers_fire_first events''
      | _ :: _ => false
      end
  | TimerFired :: _ => false
  | _ :: events' => timers_fire_first events'
  end.

(** The busy flag agrees with the requests awaited: none while it is
    down, one while it is up. *)
Definition in_step (c : Client) : Prop :=
  (isLoading (ui c) = false /\ inflight c = [])
  \/ (isLoading (ui c) = true /\ length (inflight c) = 1%nat).

(** Between turns: flag and requests agree and no timer is pending. *)
Definition settled_down (c : Client) : Prop := in_step c /\ timers c = [].

(** A freshly mounted component, after its mount effect: idle, no
    timer, nothing awaited. *)
Definition mounted (uuid1 uuid2 : jstring) (window : option Window)
  : Client :=
  {| ui := (mount uuid1 uuid2 window initialState).1;
     timers := [];
     inflight := [] |}.

End Client.

(** ** The earlier stand-alone component

    Its [handleSubmit] carries the whole turn; identity is hard-coded. *)

Module Legacy.
Import JS.

Record State := mkState {
  message : jstring;
  conversation : list Agent.Message;
  error : option jstring;
  isLoading : bool;
}.

Definition setMessage (v : jstring) (st : State) : State :=
  {| message := v; conversation := conversation st; error := error st;
     isLoading := isLoading st |}.

Definition setConversation (f : list Agent.Message -> list Agent.Message)
  (st : State) : State :=
  {| message := message st; conversation := f (conversation st);
     error := error st; isLoading := isLoading st |}.

Definition setError (v : option jstring) (st : State) : State :=
  {| message := message st; conversation := conversation st; error := v;
     isLoading := isLoading st |}.

Definition setIsLoading (v : bool) (st : State) : State :=
  {| message := message st; conversation := conversation st;
     error := error st; isLoading := v |}.

Definition payload (userMessage : Agent.Message) : json :=
  JObj [(js "data", JObj [(js "message", Agent.Message_json userMessage)]);
        (js "stateful", JBool true);
        (js "stream", JBool false);
        (js "user_id", JStr (js "userID_RandomID"));
        (js "session_id", JStr (js "sessionID_RandomID"));
        (js "verbose", JBool false)].

(** [handleSubmit(e)] up to its [await]. *)
Definition handleSubmit_start (st : State) : State * option Request :=
  let st0 := setError None st in
  if negb (truthy_string (trim (message st))) then (st0, None)
  else
    let userMessage := Agent.userMessage (message st) in
    let st1 := setConversation (λ prev, prev ++ [userMessage]) st0 in
    let p := payload userMessage in
    let st1 := setIsLoading true st1 in
    (st1, Some (Agent.proxy_request p)).

(** After the request settled; the [try] block reads the response with
    the same statements as [submitMessage]. *)
Definition handleSubmit_settle (settled : outcome) (st : State) : State :=
  let st :=
    match Agent.receive settled with
    | inr reply =>
        let agentMessage :=
          {| Agent.role := Agent.agent; Agent.content := reply |} in
        let st := setConversation (λ prev, prev ++ [agentMessage]) st in
        setMessage [] st
    | inl err => setError (Some (Error_message err)) st
    end in
  setIsLoading false st.

Definition handleSubmit (fetch : Request -> outcome) (st : State)
  : State * list Request :=
  match handleSubmit_start st with
  | (st1, Some request) => (handleSubmit_settle (fetch request) st1, [request])
  | (st1, None) => (st1, [])
  end.

End Legacy.

(** ** Component and relay on one wire

    The component's [fetch("/api/proxy")] lands in the relay's [handler];
    what the handler sends is what the component's [fetch] resolves to. *)

Module Wire.
Import JS.

(** The request as the platform hands it to the handler. *)
Definition incoming (request : Request) : Relay.NextApiRequest :=
  {| Relay.req_method := method request; Relay.req_body := body request |}.

Section Wire.

(** [JSON.stringify], for the text of a response body. *)
Variable stringify : json -> jstring.

(** The response as the component's [fetch] sees it.  A response that
    was ended without a body has the empty text, which is not JSON. *)
Definition delivered (res : Relay.NextApiResponse) : Response :=
  {| status := Relay.statusCode res;
     text := inr match Relay.sent res with
                 | Relay.Json j => stringify j
                 | _ => []
                 end;
     json_body := match Relay.sent res with
                  | Relay.Json j => inr j
                  | _ => inl (mkError (js "Unexpected end of JSON input"))
                  end |}.

(** The component's network when its requests go to the relay, which in
    turn runs against [upstream]. *)
Definition through_relay (flowURL : jstring) (key : option jstring)
  (upstream : Request -> outcome) : Request -> outcome :=
  λ request,
    inr (delivered
           (Relay.handler flowURL key upstream (incoming request)
              Relay.fresh).1).

End Wire.

End Wire.

(** ** Counting conversation entries *)

Module Tally.
Import JS Agent.

#[global] Instance Role_eq_dec : EqDecision Role.
Proof. solve_decision. Defined.

(** The entries of a conversation with a given role. *)
Definition entries (r : Role) (l : list Message) : list Message :=
  filter (λ m, role m = r) l.

(** A user entry as [submitMessage] makes them: a non-empty string with
    no white space at either end. *)
Definition trimmed_entry (m : Message) : Prop :=
  role m = user ->
  exists s, content m = JStr s /\ s <> [] /\ trim s = s.

(** A request as [submitMessage] makes them for a component whose ids
    are [uid] and [sid]. *)
Definition carries (uid sid : jstring) (request : Request) : Prop :=
  url request = js "/api/proxy"
  /\ method request = js "POST"
  /\ field (body request) (js "user_id") = Some (JStr uid)
  /\ field (body request) (js "session_id") = Some (JStr sid)
  /\ headers request !! js "Authorization" = None.

End Tally.

(** * Properties *)

Import JS.

(** ** Strings *)

Section Strings.

Implicit Types s t : jstring.

Lemma trimStart_split s :
  exists l, s = l ++ trimStart s /\ blank l.
Proof.
  induction s as [|c s IH]; simpl.
  - exists []. split; [done | constructor].
  - destruct (isWhiteSpace c) eqn:Hc.
    + destruct IH as (l & Hs & Hl). exists (c :: l). split.
      * simpl. by rewrite <- Hs.
      * by constructor.
    + exists []. split; [done | constructor].
Qed.

Lemma trimStart_head s c t :
  trimStart s = c :: t -> isWhiteSpace c = false.
Proof.
  induction s as [|d s IH]; simpl; [done|].
  destruct (isWhiteSpace d) eqn:Hd; [done|].
  intros [= -> _]. done.
Qed.

Lemma trimStart_blank s : trimStart s = [] <-> blank s.
Proof.
  induction s as [|c s IH]; simpl.
  - split; [constructor | done].
  - destruct (isWhiteSpace c) eqn:Hc.
    + rewrite IH. split; [by constructor | by inversion 1].
    + split; [done|]. inversion 1; congruence.
Qed.

Lemma trimStart_keeps_last s c :
  isWhiteSpace c = false -> exists u, trimStart (s ++ [c]) = u ++ [c].
Proof.
  intros Hc. induction s as [|d s IH]; simpl.
  - rewrite Hc. by exists [].
  - destruct (isWhiteSpace d); [done|]. by exists (d :: s).
Qed.

Lemma trimEnd_split s :
  exists r, s = trimEnd s ++ r /\ blank r.
Proof.
  unfold trimEnd.
  destruct (trimStart_split (reverse s)) as (l & Hs & Hl).
  exists (reverse l). split.
  - rewrite <- reverse_app, <- Hs. by rewrite reverse_involutive.
  - by apply Forall_reverse.
Qed.

(** [trim] removes a blank prefix and a blank suffix and nothing else. *)
Lemma trim_split s :
  exists l r, s = l ++ trim s ++ r /\ blank l /\ blank r.
Proof.
  destruct (trimStart_split s) as (l & Hs & Hl).
  destruct (trimEnd_split (trimStart s)) as (r & Ht & Hr).
  exists l, r. unfold trim. by rewrite <- Ht.
Qed.

(** What is left neither starts nor ends with white space. *)
Lemma trim_head s c t : trim s = c :: t -> isWhiteSpace c = false.
Proof.
  unfold trim, trimEnd.
  destruct (trimStart s) as [|d u] eqn:Hs; [done|].
  pose proof (trimStart_head _ _ _ Hs) as Hd.
  rewrite reverse_cons.
  destruct (trimStart_keeps_last (reverse u) d Hd) as (v & ->).
  rewrite reverse_app. simpl. by intros [= <- _].
Qed.

Lemma trim_last s c t : trim s = t ++ [c] -> isWhiteSpace c = false.
Proof.
  unfold trim, trimEnd. intros H.
  apply (f_equal reverse) in H.
  rewrite reverse_involutive, reverse_app in H. simpl in H.
  by apply trimStart_head in H.
Qed.

(** The trimmed form is empty exactly for empty or white-space-only
    text. *)
Lemma trim_blank s : trim s = [] <-> blank s.
Proof.
  split.
  - intros H. destruct (trim_split s) as (l & r & Hs & Hl & Hr).
    rewrite H in Hs. rewrite Hs. simpl. by apply Forall_app.
  - intros H. unfold trim, trimEnd.
    apply trimStart_blank in H. by rewrite H.
Qed.

End Strings.

(** ** The relay *)

Section RelayProperties.

Variable flowURL : jstring.
Variable ZEROWIDTH_API_KEY : option jstring.
Variable fetch : Request -> outcome.

Let handler := Relay.handler flowURL ZEROWIDTH_API_KEY fetch.
Let upstream_request := Relay.upstream_request flowURL ZEROWIDTH_API_KEY.
Let forward := Relay.forward flowURL ZEROWIDTH_API_KEY fetch.

Lemma handler_POST req res :
  Relay.req_method req = js "POST" ->
  handler req res =
    let res := Relay.setHeader (js "Access-Control-Allow-Origin") (js "*") res in
    let res := Relay.setHeader (js "Access-Control-Allow-Methods")
                 (js "POST, OPTIONS") res in
    let res := Relay.setHeader (js "Access-Control-Allow-Headers")
                 (js "Content-Type, Authorization") res in
    match forward (Relay.req_body req) with
    | inr data =>
        (Relay.send_json data (Relay.set_status 200 res),
         [upstream_request (Relay.req_body req)])
    | inl error =>
        (Relay.send_json
           (JObj [(js "error", JStr (js "Internal Server Error"));
                  (js "details", JStr (Error_message error))])
           (Relay.set_status 500 res),
         [upstream_request (Relay.req_body req)])
    end.
Proof.
  intros Hm. unfold handler, Relay.handler. rewrite Hm.
  destruct (decide (js "POST" = js "OPTIONS")) as [H|_]; [by vm_compute in H|].
  destruct (decide (js "POST" <> js "POST")) as [H|_]; [done|].
  reflexivity.
Qed.

(** C1. A POST whose upstream call throws, or whose upstream response is
    not 2xx, is answered with status 500 and the body
    [{error: "Internal Server Error", details}]: [details] is the message
    of the thrown error, and when upstream responded it is
    ["Zerowidth API error <status>: <body text>"] (the message of the
    read error if the body text could not be read).  The status is 500
    whatever the upstream status was. *)
Theorem relay_failure_is_500 req res :
  Relay.req_method req = js "POST" ->
  (exists e, fetch (upstream_request (Relay.req_body req)) = inl e)
  \/ (exists r, fetch (upstream_request (Relay.req_body req)) = inr r
                /\ ok r = false) ->
  let out := (handler req res).1 in
  Relay.statusCode out = 500
  /\ exists details,
      Relay.sent out =
        Relay.Json (JObj [(js "error", JStr (js "Internal Server Error"));
                          (js "details", JStr details)])
      /\ (forall e, fetch (upstream_request (Relay.req_body req)) = inl e ->
            details = Error_message e)
      /\ (forall r errorText,
            fetch (upstream_request (Relay.req_body req)) = inr r ->
            text r = inr errorText ->
            details = js "Zerowidth API error " ++ toString (status r)
                        ++ js ": " ++ errorText)
      /\ (forall r e,
            fetch (upstream_request (Relay.req_body req)) = inr r ->
            text r = inl e ->
            details = Error_message e).
Proof.
  intros Hm Hup out. subst out. rewrite (handler_POST _ _ Hm).
  unfold forward, Relay.forward. fold upstream_request.
  destruct Hup as [[e He] | (r & Hr & Hok)].
  - rewrite He. simpl. split; [done|].
    exists (Error_message e). split; [done|]. split; [|split].
    + by intros e' [= ->].
    + by intros r t [=].
    + by intros r e' [=].
  - rewrite Hr. simpl. rewrite Hok. simpl.
    destruct (text r) as [e|errorText] eqn:Ht; simpl.
    + split; [done|]. exists (Error_message e).
      split; [done|]. split; [|split].
      * by intros e' [=].
      * intros r' t [= <-] Ht'. congruence.
      * intros r' e' [= <-] Ht'. congruence.
    + split; [done|]. eexists. split; [done|]. split; [|split].
      * by intros e' [=].
      * intros r' t [= <-] Ht'. congruence.
      * intros r' e' [= <-] Ht'. congruence.
Qed.

(** C8, as the code has it.  A POST whose upstream response is 2xx
    with a body that parses as JSON is answered with that JSON value,
    unchanged, and status 200, whatever the 2xx status of upstream
    was. *)
Theorem relay_success_is_200 req res r data :
  Relay.req_method req = js "POST" ->
  fetch (upstream_request (Relay.req_body req)) = inr r ->
  ok r = true ->
  json_body r = inr data ->
  Relay.statusCode (handler req res).1 = 200
  /\ Relay.sent (handler req res).1 = Relay.Json data.
Proof.
  intros Hm Hr Hok Hdata. rewrite (handler_POST _ _ Hm).
  unfold forward, Relay.forward. fold upstream_request.
  rewrite Hr. simpl. rewrite Hok. simpl. rewrite Hdata. by simpl.
Qed.

(** C9. Whatever the method, the body and the upstream outcome, the
    handler sends a response, with status 200, 405 or 500, and that
    response carries the three CORS headers. *)
Theorem relay_always_sets_cors req res :
  let out := (handler req res).1 in
  Relay.res_headers out !! js "Access-Control-Allow-Origin" = Some (js "*")
  /\ Relay.res_headers out !! js "Access-Control-Allow-Methods"
       = Some (js "POST, OPTIONS")
  /\ Relay.res_headers out !! js "Access-Control-Allow-Headers"
       = Some (js "Content-Type, Authorization")
  /\ Relay.sent out <> Relay.NotSent
  /\ (Relay.statusCode out = 200 \/ Relay.statusCode out = 405
       \/ Relay.statusCode out = 500).
Proof.
  assert (Hh : Relay.res_headers (handler req res).1 =
               <[js "Access-Control-Allow-Headers" :=
                   js "Content-Type, Authorization"]>
               (<[js "Access-Control-Allow-Methods" := js "POST, OPTIONS"]>
               (<[js "Access-Control-Allow-Origin" := js "*"]>
                  (Relay.res_headers res)))).
  { unfold handler, Relay.handler.
    repeat case_decide; try done.
    by destruct (Relay.forward _ _ _ _). }
  intros out. subst out. rewrite Hh.
  split; [|split; [|split]].
  - rewrite lookup_insert_ne by (by vm_compute).
    rewrite lookup_insert_ne by (by vm_compute).
    by rewrite lookup_insert_eq.
  - rewrite lookup_insert_ne by (by vm_compute).
    by rewrite lookup_insert_eq.
  - by rewrite lookup_insert_eq.
  - unfold handler, Relay.handler.
    repeat case_decide; simpl; try (split; [done | tauto]).
    destruct (Relay.forward _ _ _ _); simpl; (split; [done | tauto]).
Qed.

End RelayProperties.

(** A relay run used to exercise the statements above: upstream answers
    503 with the text ["busy"]. *)
Lemma relay_failure_is_500_witness :
  let fetch : Request -> outcome := λ _,
    inr {| status := 503; text := inr (js "busy");
           json_body := inl (mkError (js "Unexpected token")) |} in
  let req := Relay.mkReq (js "POST") (Some (JObj [])) in
  let out := (Relay.handler Relay.chatConfig_flowURL (Some (js "sk0w"))
                fetch req Relay.fresh).1 in
  Relay.req_method req = js "POST"
  /\ Relay.statusCode out = 500
  /\ Relay.sent out =
       Relay.Json (JObj [(js "error", JStr (js "Internal Server Error"));
                         (js "details",
                          JStr (js "Zerowidth API error 503: busy"))]).
Proof.
  intros fetch req out.
  pose proof (relay_failure_is_500 Relay.chatConfig_flowURL
                (Some (js "sk0w")) fetch req Relay.fresh eq_refl) as H.
  destruct H as (Hstatus & details & Hsent & _ & Hdetails & _).
  { right. eexists. split; reflexivity. }
  split; [reflexivity|]. split; [exact Hstatus|].
  subst out. rewrite Hsent.
  rewrite (Hdetails _ (js "busy") eq_refl eq_refl). reflexivity.
Defined.

(** C8 as worded fails for a 2xx answer that carries no JSON: upstream
    answers 204 with an empty body, reading it as JSON throws, and the
    relay answers 500 with the error object, not 200. *)
Lemma no_content_counterexample :
  let e := mkError (js "Unexpected end of JSON input") in
  let r := {| status := 204; text := inr []; json_body := inl e |} in
  let fetch : Request -> outcome := λ _, inr r in
  let req := Relay.mkReq (js "POST") (Some (JObj [])) in
  let out := (Relay.handler Relay.chatConfig_flowURL (Some (js "sk0w"))
                fetch req Relay.fresh).1 in
  (Relay.req_method req = js "POST" /\ ok r = true)
  /\ Relay.statusCode out = 500
  /\ Relay.statusCode out <> 200
  /\ Relay.sent out =
       Relay.Json (JObj [(js "error", JStr (js "Internal Server Error"));
                         (js "details",
                          JStr (js "Unexpected end of JSON input"))]).
Proof. vm_compute. repeat split; done. Qed.

Lemma relay_success_is_200_witness :
  let data := JObj [(js "output_data",
                     JObj [(js "content", JStr (js "HOW DO YOU DO"))])] in
  let r := {| status := 201; text := inr []; json_body := inr data |} in
  let fetch : Request -> outcome := λ _, inr r in
  let req := Relay.mkReq (js "POST") (Some (JObj [])) in
  let out := (Relay.handler Relay.chatConfig_flowURL (Some (js "sk0w"))
                fetch req Relay.fresh).1 in
  (Relay.req_method req = js "POST" /\ ok r = true)
  /\ Relay.statusCode out = 200 /\ Relay.sent out = Relay.Json data.
Proof.
  intros data r fetch req out. split; [split; reflexivity|].
  apply (relay_success_is_200 Relay.chatConfig_flowURL (Some (js "sk0w"))
           fetch req Relay.fresh r data); reflexivity.
Defined.

(** ** Submitting a message *)

Section SubmitProperties.

Import Agent.

Variable fetch : Request -> outcome.

Implicit Types (userInput : jstring) (st : State).

Lemma submitMessage_start_blank userInput st :
  trim userInput = [] -> submitMessage_start userInput st = (st, None).
Proof. intros H. unfold submitMessage_start. by rewrite H. Qed.

Lemma submitMessage_start_nonblank userInput st :
  trim userInput <> [] ->
  submitMessage_start userInput st =
    (setIsLoading true
       (setConversation (λ prev, prev ++ [userMessage userInput])
          (setError None (setMessage [] st))),
     Some (proxy_request (payload (userMessage userInput) st))).
Proof.
  intros H. unfold submitMessage_start.
  destruct (trim userInput) eqn:Ht; [done|]. reflexivity.
Qed.

(** In the component, a blank submission changes nothing and sends
    nothing, whether it comes through [submitMessage] or the form. *)
Lemma submitMessage_blank_noop userInput st :
  blank userInput -> submitMessage fetch userInput st = (st, []).
Proof.
  intros H%trim_blank. unfold submitMessage.
  by rewrite submitMessage_start_blank.
Qed.

Lemma handleSubmit_blank_noop st :
  blank (message st) -> handleSubmit fetch st = (st, []).
Proof. apply submitMessage_blank_noop. Qed.

(** The earlier component clears the error before it looks at the
    text: a blank submission sends nothing and appends nothing, but the
    error cell is reset. *)
Lemma Legacy_handleSubmit_blank (st : Legacy.State) :
  blank (Legacy.message st) ->
  Legacy.handleSubmit fetch st = (Legacy.setError None st, []).
Proof.
  intros H%trim_blank. unfold Legacy.handleSubmit, Legacy.handleSubmit_start.
  by rewrite H.
Qed.

(** C2. On the earlier component, with an error on display and only
    spaces in the input field, submitting the form issues no request and
    appends no message, yet the error cell changes: it is cleared. *)
Theorem Legacy_blank_submit_clears_error :
  let st := {| Legacy.message := js "   ";
               Legacy.conversation := [userMessage (js "hello")];
               Legacy.error := Some (js "Server error: 500");
               Legacy.isLoading := false |} in
  trim (Legacy.message st) = []
  /\ (Legacy.handleSubmit fetch st).2 = []
  /\ (Legacy.handleSubmit fetch st).1 = Legacy.setError None st
  /\ Legacy.conversation (Legacy.handleSubmit fetch st).1
     = Legacy.conversation st
  /\ Legacy.error st = Some (js "Server error: 500")
  /\ Legacy.error (Legacy.handleSubmit fetch st).1 = None.
Proof. by vm_compute. Qed.

(** C10. For an input whose trimmed form is not empty, the user entry
    appended to the conversation and the message inside the request body
    both carry the trimmed input as content, in the component
    ([submitMessage]) and in the earlier one ([handleSubmit]); the trimmed
    input is the input without its blank prefix and suffix. *)
Theorem user_message_is_trimmed userInput st (lst : Legacy.State) :
  trim userInput <> [] ->
  Legacy.message lst = userInput ->
  (exists st1 request,
      submitMessage_start userInput st = (st1, Some request)
      /\ conversation st1 =
           conversation st
           ++ [{| role := user; content := JStr (trim userInput) |}]
      /\ field (field (field (body request) (js "data")) (js "message"))
               (js "content") = Some (JStr (trim userInput)))
  /\ (exists lst1 request,
      Legacy.handleSubmit_start lst = (lst1, Some request)
      /\ Legacy.conversation lst1 =
           Legacy.conversation lst
           ++ [{| role := user; content := JStr (trim userInput) |}]
      /\ field (field (field (body request) (js "data")) (js "message"))
               (js "content") = Some (JStr (trim userInput)))
  /\ (exists l r, userInput = l ++ trim userInput ++ r
                  /\ blank l /\ blank r).
Proof.
  intros Hne Hl. split; [|split].
  - rewrite (submitMessage_start_nonblank _ _ Hne).
    eexists _, _. split; [reflexivity|]. split; reflexivity.
  - unfold Legacy.handleSubmit_start. rewrite Hl.
    destruct (trim userInput) eqn:Ht; [done|]. simpl.
    eexists _, _. split; [reflexivity|]. simpl.
    unfold userMessage. rewrite Ht. split; reflexivity.
  - apply trim_split.
Qed.

(** C6. For an input whose trimmed form is not empty, the request that
    [submitMessage] dispatches is a POST to [/api/proxy] whose body is the
    envelope, field by field; the relay, given that body, makes exactly one
    upstream call, to the configured URL, with the same body.  That call
    is the one upstream is consulted with: the relay's answer is upstream's
    answer to it, the JSON document of a 2xx answer handed back as it is. *)
Theorem envelope_sent_and_forwarded userInput st :
  trim userInput <> [] ->
  exists st1 request,
    submitMessage_start userInput st = (st1, Some request)
    /\ url request = js "/api/proxy"
    /\ method request = js "POST"
    /\ body request =
         Some (JObj
           [(js "data",
             JObj [(js "message",
                    JObj [(js "role", JStr (js "user"));
                          (js "content", JStr (trim userInput))])]);
            (js "stateful", JBool true);
            (js "stream", JBool false);
            (js "user_id", JStr (userId st));
            (js "session_id", JStr (sessionId st));
            (js "verbose", JBool false)])
    /\ forall flowURL key upstream res,
         exists call,
           (Relay.handler flowURL key upstream
              (Relay.mkReq (method request) (body request)) res).2 = [call]
           /\ url call = flowURL
           /\ method call = js "POST"
           /\ body call = body request
           /\ Relay.handler flowURL key upstream
                (Relay.mkReq (method request) (body request)) res
              = Relay.handler flowURL key (λ _, upstream call)
                  (Relay.mkReq (method request) (body request)) res
           /\ (forall r data,
                 upstream call = inr r -> ok r = true ->
                 json_body r = inr data ->
                 Relay.sent
                   (Relay.handler flowURL key upstream
                      (Relay.mkReq (method request) (body request)) res).1
                 = Relay.Json data)
           /\ (forall e,
                 upstream call = inl e ->
                 Relay.sent
                   (Relay.handler flowURL key upstream
                      (Relay.mkReq (method request) (body request)) res).1
                 = Relay.Json
                     (JObj [(js "error", JStr (js "Internal Server Error"));
                            (js "details", JStr (Error_message e))])).
Proof.
  intros Hne. rewrite (submitMessage_start_nonblank _ _ Hne).
  eexists _, _. split; [reflexivity|].
  repeat (split; [reflexivity|]).
  intros flowURL key upstream res.
  exists (Relay.upstream_request flowURL key
            (Some (payload (userMessage userInput) st))).
  rewrite !handler_POST by reflexivity.
  cbn [Relay.req_body proxy_request body method].
  split; [by destruct (Relay.forward _ _ _ _)|].
  do 3 (split; [reflexivity|]).
  unfold Relay.forward. split; [|split].
  - reflexivity.
  - intros r data Hr Hok Hdata. rewrite Hr. simpl.
    rewrite Hok. simpl. by rewrite Hdata.
  - intros e He. by rewrite He.
Qed.

End SubmitProperties.

(** ** The reply of the relay *)

Section TurnProperties.

Import Agent.

Variable fetch : Request -> outcome.

Implicit Types (userInput : jstring) (st : State).

(** A whole turn whose request was answered with a response. *)
Lemma submitMessage_answered userInput st r :
  trim userInput <> [] ->
  fetch (proxy_request (payload (userMessage userInput) st)) = inr r ->
  submitMessage fetch userInput st =
    (submitMessage_settle (inr r)
       (setIsLoading true
          (setConversation (λ prev, prev ++ [userMessage userInput])
             (setError None (setMessage [] st)))),
     [proxy_request (payload (userMessage userInput) st)]).
Proof.
  intros Hne Hr. unfold submitMessage.
  rewrite (submitMessage_start_nonblank _ _ Hne). by rewrite Hr.
Qed.

(** A document other than [null] without [output_data.content], or with
    the empty string there, yields the fallback text. *)
Lemma agentReply_fallback data :
  data <> JNull ->
  output_content data = None \/ output_content data = Some (JStr []) ->
  agentReply data = inr fallback.
Proof.
  intros Hnull Hc. unfold agentReply, output_content in *.
  destruct data as [| | | | |props]; try done. simpl in *.
  destruct (own_property props (js "output_data")) as [od|]; [|done].
  destruct od as [|[]|q|[]| |props']; simpl in *; try done.
  - by destruct (negb _).
  - destruct (own_property props' (js "content")) as [c|]; [|done].
    destruct Hc as [|[= ->]]; done.
Qed.

(** A non-empty string at [output_data.content] is the reply. *)
Lemma agentReply_content data X :
  output_content data = Some (JStr X) -> X <> [] ->
  agentReply data = inr (JStr X).
Proof.
  intros Hc HX. unfold agentReply, output_content in *.
  destruct data as [| | | | |props]; try done. simpl in *.
  destruct (own_property props (js "output_data")) as [od|]; [|done].
  destruct od as [| | | | |props']; simpl in *; try done.
  rewrite Hc. simpl. by destruct X.
Qed.

(** C3, as the code has it.  When the relay answers a turn with a 2xx
    status and a JSON body: if the body has a non-empty string [X] at
    [output_data.content], exactly one agent entry with content [X] is
    appended after the user entry; if the body is not [null] and has
    nothing at [output_data.content], or the empty string, exactly one
    agent entry with the fallback text is appended. *)
Theorem agent_reply_appended userInput st r data :
  trim userInput <> [] ->
  fetch (proxy_request (payload (userMessage userInput) st)) = inr r ->
  ok r = true ->
  json_body r = inr data ->
  let st' := (submitMessage fetch userInput st).1 in
  (forall X, output_content data = Some (JStr X) -> X <> [] ->
     conversation st' =
       conversation st
       ++ [userMessage userInput; {| role := agent; content := JStr X |}])
  /\ (data <> JNull ->
      output_content data = None \/ output_content data = Some (JStr []) ->
      conversation st' =
        conversation st
        ++ [userMessage userInput;
            {| role := agent;
               content :=
                 JStr (js "No valid response received from agent.") |}]).
Proof.
  intros Hne Hr Hok Hdata st'. subst st'.
  rewrite (submitMessage_answered _ _ _ Hne Hr).
  unfold submitMessage_settle, receive. simpl.
  rewrite Hok, Hdata. simpl. split.
  - intros X HX HXne. rewrite (agentReply_content _ _ HX HXne). simpl.
    by rewrite <- app_assoc.
  - intros Hnull Hc. rewrite (agentReply_fallback _ Hnull Hc). simpl.
    by rewrite <- app_assoc.
Qed.

(** C4. When the relay answers a turn with a status outside 200-299,
    the conversation gains the user entry only, and the error cell holds
    ["Server error: <status>"], a non-empty text that contains the
    status. *)
Theorem relay_error_is_reported userInput st r :
  trim userInput <> [] ->
  fetch (proxy_request (payload (userMessage userInput) st)) = inr r ->
  ok r = false ->
  let st' := (submitMessage fetch userInput st).1 in
  conversation st' =
    conversation st ++ [{| role := user; content := JStr (trim userInput) |}]
  /\ exists e, error st' = Some e
               /\ e <> []
               /\ e = js "Server error: " ++ toString (status r)
               /\ includes e (toString (status r)).
Proof.
  intros Hne Hr Hok st'. subst st'.
  rewrite (submitMessage_answered _ _ _ Hne Hr).
  unfold submitMessage_settle, receive. simpl. rewrite Hok. simpl.
  split; [done|]. eexists. split; [done|]. split; [done|]. split; [done|].
  exists (js "Server error: "), []. by rewrite app_nil_r.
Qed.

End TurnProperties.

(** C3 as worded fails for the empty string: the body carries
    [output_data.content = ""], and the agent entry appended holds the
    fallback text instead.  And a 2xx body [null], which has no
    [output_data.content], gets no agent entry at all. *)
Lemma empty_content_counterexample :
  let reply (data : json) : Request -> outcome := λ _,
    inr {| status := 200; text := inr []; json_body := inr data |} in
  let empty := JObj [(js "output_data", JObj [(js "content", JStr [])])] in
  let st1 := (Agent.submitMessage (reply empty) (js "hi")
                Agent.initialState).1 in
  let st2 := (Agent.submitMessage (reply JNull) (js "hi")
                Agent.initialState).1 in
  (Agent.output_content empty = Some (JStr [])
   /\ Agent.conversation st1 =
        [Agent.userMessage (js "hi");
         {| Agent.role := Agent.agent;
            Agent.content :=
              JStr (js "No valid response received from agent.") |}]
   /\ Agent.conversation st1 <>
        [Agent.userMessage (js "hi");
         {| Agent.role := Agent.agent; Agent.content := JStr [] |}])
  /\ (Agent.output_content JNull = None
      /\ Agent.conversation st2 = [Agent.userMessage (js "hi")]).
Proof. vm_compute. repeat split; done. Qed.

Lemma agent_reply_appended_witness :
  let data := JObj [(js "output_data",
                     JObj [(js "content", JStr (js "HOW DO YOU DO"))])] in
  let r := {| status := 200; text := inr []; json_body := inr data |} in
  let fetch : Request -> outcome := λ _, inr r in
  let st' := (Agent.submitMessage fetch (js " hello ")
                Agent.initialState).1 in
  (trim (js " hello ") <> [] /\ ok r = true)
  /\ (forall X, Agent.output_content data = Some (JStr X) -> X <> [] ->
        Agent.conversation st' =
          Agent.conversation Agent.initialState
          ++ [Agent.userMessage (js " hello ");
              {| Agent.role := Agent.agent; Agent.content := JStr X |}])
  /\ (data <> JNull ->
      Agent.output_content data = None
      \/ Agent.output_content data = Some (JStr []) ->
      Agent.conversation st' =
        Agent.conversation Agent.initialState
        ++ [Agent.userMessage (js " hello ");
            {| Agent.role := Agent.agent;
               Agent.content :=
                 JStr (js "No valid response received from agent.") |}]).
Proof.
  intros data r fetch st'. split; [split; [by vm_compute | reflexivity]|].
  apply (agent_reply_appended fetch (js " hello ") Agent.initialState r data);
    [by vm_compute | reflexivity | reflexivity | reflexivity].
Defined.

Lemma relay_error_is_reported_witness :
  let r := {| status := 500; text := inr [];
              json_body := inr (JObj [(js "error",
                                       JStr (js "Internal Server Error"))]) |} in
  let fetch : Request -> outcome := λ _, inr r in
  let st' := (Agent.submitMessage fetch (js " hello ")
                Agent.initialState).1 in
  (trim (js " hello ") <> [] /\ ok r = false)
  /\ Agent.conversation st' =
       [{| Agent.role := Agent.user; Agent.content := JStr (js "hello") |}]
  /\ Agent.error st' = Some (js "Server error: 500").
Proof.
  intros r fetch st'. split; [split; [by vm_compute | reflexivity]|].
  destruct (relay_error_is_reported fetch (js " hello ") Agent.initialState r)
    as (Hconv & e & He & _ & -> & _);
    [by vm_compute | reflexivity | reflexivity |].
  split; [exact Hconv | exact He].
Defined.

(** ** Identity *)

Section IdentityProperties.

Import Agent.

Implicit Types w : Window.

Lemma fresh_id_length (uuidv4 : jstring) : (length (fresh_id uuidv4) <= 32)%nat.
Proof. unfold fresh_id. rewrite length_take. lia. Qed.

Lemma fresh_id_no_dash (uuidv4 : jstring) : 45 ∉ fresh_id uuidv4.
Proof.
  unfold fresh_id. intros (i & Hi & _)%elem_of_take.
  apply list_elem_of_lookup_2, list_elem_of_filter in Hi. by destruct Hi.
Qed.

Lemma getSessionId_regenerates (uuidv4 : jstring) w :
  (sessionStorage w !! js "sessionId" = None
   \/ exists s, sessionStorage w !! js "sessionId" = Some s
                /\ (s = [] \/ (32 < length s)%nat)) ->
  getSessionId uuidv4 (Some w) =
    (fresh_id uuidv4,
     Some (setSessionItem (js "sessionId") (fresh_id uuidv4) w)).
Proof.
  unfold getSessionId. intros [-> | (s & -> & Hs)]; [done|]. simpl.
  destruct Hs as [-> | Hlen]; [done|].
  destruct s; [simpl in Hlen; lia|]. simpl truthy_string.
  rewrite (proj2 (Nat.leb_gt _ _)) by done. done.
Qed.

Lemma getSessionId_keeps (uuidv4 : jstring) w s :
  sessionStorage w !! js "sessionId" = Some s ->
  s <> [] -> (length s <= 32)%nat ->
  getSessionId uuidv4 (Some w) = (s, Some w).
Proof.
  unfold getSessionId. intros -> Hs Hlen. simpl.
  destruct s; [done|]. simpl truthy_string.
  rewrite (proj2 (Nat.leb_le _ _)) by done. done.
Qed.

Lemma getUserId_regenerates (uuidv4 : jstring) w :
  (localStorage w !! js "userId" = None
   \/ exists s, localStorage w !! js "userId" = Some s
                /\ (s = [] \/ (32 < length s)%nat)) ->
  getUserId uuidv4 (Some w) =
    (fresh_id uuidv4, Some (setLocalItem (js "userId") (fresh_id uuidv4) w)).
Proof.
  unfold getUserId. intros [-> | (s & -> & Hs)]; [done|]. simpl.
  destruct Hs as [-> | Hlen]; [done|].
  destruct s; [simpl in Hlen; lia|]. simpl truthy_string.
  rewrite (proj2 (Nat.leb_gt _ _)) by done. done.
Qed.

Lemma getUserId_keeps (uuidv4 : jstring) w s :
  localStorage w !! js "userId" = Some s ->
  s <> [] -> (length s <= 32)%nat ->
  getUserId uuidv4 (Some w) = (s, Some w).
Proof.
  unfold getUserId. intros -> Hs Hlen. simpl.
  destruct s; [done|]. simpl truthy_string.
  rewrite (proj2 (Nat.leb_le _ _)) by done. done.
Qed.

(** C7, as the code has it.  In a browser window, reading either
    identity when the stored value is missing, empty or longer than 32
    (33 included) returns a newly generated value of at most 32 code
    units and stores it under the same key; a stored value that is not
    empty and at most 32 long is returned as it is and the storage is
    left alone. *)
Theorem identity_read_or_create (uuidv4 : jstring) w :
  let invalid (stored : option jstring) :=
    stored = None
    \/ exists s, stored = Some s /\ (s = [] \/ (32 < length s)%nat) in
  let valid (stored : option jstring) (s : jstring) :=
    stored = Some s /\ s <> [] /\ (length s <= 32)%nat in
  (length (fresh_id uuidv4) <= 32)%nat
  /\ (invalid (sessionStorage w !! js "sessionId") ->
      exists w',
        getSessionId uuidv4 (Some w) = (fresh_id uuidv4, Some w')
        /\ w' = setSessionItem (js "sessionId") (fresh_id uuidv4) w
        /\ sessionStorage w' !! js "sessionId" = Some (fresh_id uuidv4))
  /\ (forall s, valid (sessionStorage w !! js "sessionId") s ->
        getSessionId uuidv4 (Some w) = (s, Some w))
  /\ (invalid (localStorage w !! js "userId") ->
      exists w',
        getUserId uuidv4 (Some w) = (fresh_id uuidv4, Some w')
        /\ w' = setLocalItem (js "userId") (fresh_id uuidv4) w
        /\ localStorage w' !! js "userId" = Some (fresh_id uuidv4))
  /\ (forall s, valid (localStorage w !! js "userId") s ->
        getUserId uuidv4 (Some w) = (s, Some w)).
Proof.
  intros invalid valid. split; [apply fresh_id_length|].
  split; [|split; [|split]].
  - intros H. eexists. split; [by apply getSessionId_regenerates|].
    split; [done|]. simpl. by rewrite lookup_insert_eq.
  - intros s (H & Hs & Hlen). by apply getSessionId_keeps.
  - intros H. eexists. split; [by apply getUserId_regenerates|].
    split; [done|]. simpl. by rewrite lookup_insert_eq.
  - intros s (H & Hs & Hlen). by apply getUserId_keeps.
Qed.

End IdentityProperties.

(** C7 as worded fails for a stored empty string: its length is at
    most 32, yet it is not returned; a generated id replaces it. *)
Lemma empty_stored_id_counterexample :
  let w := {| Agent.sessionStorage := {[ js "sessionId" := [] ]};
              Agent.localStorage := ∅ |} in
  let uuid := js "123e4567-e89b-42d3-a456-426614174000" in
  Agent.sessionStorage w !! js "sessionId" = Some []
  /\ (length (@nil N) <= 32)%nat
  /\ (Agent.getSessionId uuid (Some w)).1
     = js "123e4567e89b42d3a456426614174000"
  /\ (Agent.getSessionId uuid (Some w)).1 <> [].
Proof. vm_compute. repeat split; [lia | done]. Qed.

(** A stored session value of length 33 is replaced. *)
Lemma identity_read_or_create_witness :
  let stored := js "0123456789abcdef0123456789abcdefX" in
  let w := {| Agent.sessionStorage := {[ js "sessionId" := stored ]};
              Agent.localStorage := {[ js "userId" := js "u1" ]} |} in
  let uuid := js "123e4567-e89b-42d3-a456-426614174000" in
  (length stored = 33%nat
   /\ Agent.sessionStorage w !! js "sessionId" = Some stored
   /\ Agent.localStorage w !! js "userId" = Some (js "u1"))
  /\ (exists w',
        Agent.getSessionId uuid (Some w)
        = (js "123e4567e89b42d3a456426614174000", Some w')
        /\ Agent.sessionStorage w' !! js "sessionId"
           = Some (js "123e4567e89b42d3a456426614174000"))
  /\ Agent.getUserId uuid (Some w) = (js "u1", Some w).
Proof.
  intros stored w uuid.
  destruct (identity_read_or_create uuid w) as (_ & Hnew & _ & _ & Hkeep).
  split; [by vm_compute|]. split.
  - destruct Hnew as (w' & Hget & _ & Hstored).
    { right. exists stored. split; [by vm_compute|]. right. vm_compute. lia. }
    exists w'. split; [exact Hget | exact Hstored].
  - apply Hkeep. split; [by vm_compute|]. split; [done|]. vm_compute. lia.
Defined.

(** ** The busy flag *)

Section BusyFlag.

Import Agent Client.

Implicit Types (c : Client) (st : State) (e : Event).

(** [finally]: whatever the outcome, the flag is down afterwards. *)
Lemma submitMessage_settle_clears o st :
  isLoading (submitMessage_settle o st) = false.
Proof. unfold submitMessage_settle. by destruct (receive o). Qed.

(** The flag is up by the time the request is out. *)
Lemma submitMessage_start_raises (userInput : jstring) st st1 request :
  submitMessage_start userInput st = (st1, Some request) ->
  isLoading st1 = true.
Proof.
  unfold submitMessage_start.
  destruct (negb _); [done|]. by intros [= <- _].
Qed.

Lemma submitMessage_start_idle (userInput : jstring) st st1 :
  submitMessage_start userInput st = (st1, None) -> st1 = st.
Proof.
  unfold submitMessage_start.
  destruct (negb _); [|done]. by intros [= <-].
Qed.

Lemma dispatch_in_step (userInput : jstring) c :
  isLoading (ui c) = false -> inflight c = [] ->
  in_step (dispatch userInput c).
Proof.
  intros Hidle Hnone. unfold dispatch, in_step.
  destruct (submitMessage_start userInput (ui c)) as [st1 [request|]] eqn:Hs;
    simpl; rewrite Hnone.
  - right. split; [|done]. by eapply submitMessage_start_raises.
  - left. apply submitMessage_start_idle in Hs as ->. by rewrite app_nil_r.
Qed.

Lemma dispatch_timers (userInput : jstring) c :
  timers (dispatch userInput c) = timers c.
Proof. unfold dispatch. by destruct (submitMessage_start _ _). Qed.

(** Every event but a prompt click and its timer. *)
Lemma step_settled_down c e c' :
  settled_down c ->
  (forall prompt, e <> PromptClicked prompt) -> e <> TimerFired ->
  step c e = Some c' -> settled_down c'.
Proof.
  intros [Hc Ht] Hclick Htimer. destruct e; simpl; try done.
  - intros [= <-]. by split.
  - unfold submit_disabled. destruct (isLoading (ui c)) eqn:Hl; [done|].
    intros [= <-]. destruct Hc as [[_ Hn]|[? _]]; [|congruence]. split.
    + by apply dispatch_in_step.
    + by rewrite dispatch_timers.
  - by destruct (Hclick prompt).
  - intros [= <-]. split; [|done].
    unfold in_step, handlePromptMouseOver in *. simpl. by destruct (negb _).
  - intros [= <-]. by split.
  - intros [= <-]. by split.
  - intros [= <-]. by split.
  - destruct (inflight c !! i) as [request|] eqn:Hi; [|done].
    intros [= <-]. split; [|done]. left.
    split; [apply submitMessage_settle_clears|]. simpl.
    destruct Hc as [[_ Hn]|[_ Hone]]; [by rewrite Hn in Hi|].
    destruct (inflight c) as [|r [|]]; try done.
    by destruct i.
Qed.

(** A prompt click leaves flag and requests as they were. *)
Lemma click_in_step c prompt c1 :
  in_step c -> step c (PromptClicked prompt) = Some c1 ->
  in_step c1 /\ isLoading (ui c1) = false
  /\ timers c1 = timers c ++ [prompt].
Proof.
  intros Hc. simpl. unfold prompt_disabled.
  destruct (isLoading (ui c)) eqn:Hl; [done|]. intros [= <-]. simpl.
  split; [|done]. destruct Hc as [[_ Hn]|[? _]]; [|congruence]. by left.
Qed.

(** A prompt click followed at once by its timer is a turn. *)
Lemma click_timer_settled_down c prompt c1 c2 :
  settled_down c ->
  step c (PromptClicked prompt) = Some c1 ->
  step c1 TimerFired = Some c2 ->
  settled_down c2.
Proof.
  intros [Hc Ht] H1 H2.
  destruct (click_in_step _ _ _ Hc H1) as (Hc1 & Hl1 & Ht1).
  rewrite Ht in Ht1. simpl in H2, Ht1. rewrite Ht1 in H2.
  injection H2 as <-. split.
  - apply dispatch_in_step; simpl; [done|].
    destruct Hc1 as [[_ Hn]|[? _]]; [done | congruence].
  - by rewrite dispatch_timers.
Qed.

Lemma run_in_step events :
  forall c c', settled_down c -> timers_fire_first events = true ->
               run c events = Some c' -> in_step c'.
Proof.
  induction events as [events IH] using (induction_ltof1 _ (@length Event)).
  unfold ltof in IH. intros c c' Hc Hord Hrun.
  destruct events as [|e events]; simpl in Hrun.
  { injection Hrun as <-. by destruct Hc. }
  destruct (step c e) as [c1|] eqn:He; [|done].
  destruct e; try (by simpl in Hord);
    try (apply (IH events) with (c := c1);
         [simpl; lia
         | by apply (step_settled_down c _ c1 Hc) in He
         | exact Hord | exact Hrun]).
  destruct events as [|e events]; simpl in Hrun.
  { injection Hrun as <-. destruct Hc as [Hc _].
    by destruct (click_in_step _ _ _ Hc He). }
  destruct e; try (by simpl in Hord).
  destruct (step c1 TimerFired) as [c2|] eqn:He2; [|done].
  apply (IH events) with (c := c2);
    [simpl; lia | by eapply click_timer_settled_down
    | exact Hord | exact Hrun].
Qed.

(** X27. From an idle component, after any sequence of events the page
    delivers, a prompt click's zero-delay timer running before the next
    event: the busy flag is up exactly while a request is awaited (and at
    most one is); the send button is enabled exactly when the flag is
    down; and settling the request, with any response or failure, brings
    the flag down. *)
Theorem busy_flag_lifecycle c0 events c :
  isLoading (ui c0) = false ->
  timers c0 = [] ->
  inflight c0 = [] ->
  timers_fire_first events = true ->
  run c0 events = Some c ->
  (isLoading (ui c) = true <-> inflight c <> [])
  /\ (length (inflight c) <= 1)%nat
  /\ (submit_disabled (ui c) = false <-> isLoading (ui c) = false)
  /\ (forall o, isLoading (submitMessage_settle o (ui c)) = false).
Proof.
  intros Hidle Htimers Hnone Hord Hrun.
  assert (Hc : in_step c).
  { eapply run_in_step; [|exact Hord|exact Hrun]. split; [by left|done]. }
  split; [|split; [|split]].
  - destruct Hc as [[Hl Hn]|[Hl Hone]].
    + rewrite Hl, Hn. split; done.
    + rewrite Hl. split; [|done]. intros _ Hn. by rewrite Hn in Hone.
  - destruct Hc as [[_ Hn]|[_ Hone]]; [rewrite Hn; simpl|]; lia.
  - done.
  - intros o. apply submitMessage_settle_clears.
Qed.

End BusyFlag.

(** The flag over two turns: up after the form is submitted, down once
    the relay has answered, up again after a prompt click. *)
Lemma busy_flag_lifecycle_witness :
  let c0 := Client.mounted (js "123e4567-e89b-42d3-a456-426614174000")
              (js "9b2e4567-e89b-42d3-a456-426614174abc")
              (Some (Agent.mkWindow ∅ ∅)) in
  let r := {| status := 500; text := inr []; json_body := inr JNull |} in
  let awaiting := [Client.Typed (js "hi"); Client.FormSubmitted] in
  let again := awaiting ++ [Client.Settled 0 (inr r);
                            Client.PromptClicked (js "Casual");
                            Client.TimerFired] in
  (Agent.isLoading (Client.ui c0) = false /\ Client.timers c0 = []
   /\ Client.inflight c0 = []
   /\ Client.timers_fire_first awaiting = true
   /\ Client.timers_fire_first again = true)
  /\ (exists c, Client.run c0 awaiting = Some c
                /\ Agent.isLoading (Client.ui c) = true
                /\ Client.inflight c <> [])
  /\ (exists c, Client.run c0 again = Some c
                /\ Agent.isLoading (Client.ui c) = true
                /\ (length (Client.inflight c) <= 1)%nat).
Proof.
  intros c0 r awaiting again.
  split; [repeat split; reflexivity|]. split.
  - eexists. split; [reflexivity|].
    match goal with
    | |- Agent.isLoading (Client.ui ?c) = true /\ _ =>
        destruct (busy_flag_lifecycle c0 awaiting c
                    eq_refl eq_refl eq_refl eq_refl eq_refl) as (Hup & _)
    end.
    split; [apply Hup|]; done.
  - eexists. split; [reflexivity|].
    match goal with
    | |- Agent.isLoading (Client.ui ?c) = true /\ _ =>
        destruct (busy_flag_lifecycle c0 again c
                    eq_refl eq_refl eq_refl eq_refl eq_refl)
          as (Hup & Hone & _)
    end.
    split; [apply Hup; done | exact Hone].
Defined.

(** C5. Two suggested prompts are clicked before the zero-delay timer
    of the first click has run (the buttons are still enabled: the flag
    goes up only inside the timer).  Both timers then call
    [submitMessage], which does not look at the flag, and two requests
    are out at once.  When the first is answered the flag goes down and
    the send button is enabled while the second request is still
    awaited. *)
Theorem overlapping_prompt_turns :
  let c0 := Client.mounted (js "123e4567-e89b-42d3-a456-426614174000")
              (js "9b2e4567-e89b-42d3-a456-426614174abc")
              (Some (Agent.mkWindow ∅ ∅)) in
  let r := {| status := 200; text := inr [];
              json_body :=
                inr (JObj [(js "output_data",
                            JObj [(js "content",
                                   JStr (js "HOW DO YOU DO"))])]) |} in
  let clicks := [Client.PromptClicked (js "I am anxious about the future.");
                 Client.PromptClicked
                   (js "I spend too much time with computers.");
                 Client.TimerFired; Client.TimerFired] in
  (Agent.isLoading (Client.ui c0) = false /\ Client.inflight c0 = [])
  /\ (exists c, Client.run c0 clicks = Some c
                /\ Agent.isLoading (Client.ui c) = true
                /\ length (Client.inflight c) = 2%nat)
  /\ (exists c, Client.run c0 (clicks ++ [Client.Settled 0 (inr r)]) = Some c
                /\ Agent.isLoading (Client.ui c) = false
                /\ Agent.submit_disabled (Client.ui c) = false
                /\ length (Client.inflight c) = 1%nat
                /\ Client.inflight c <> []).
Proof.
  split; [split; reflexivity|].
  split; eexists; (split; [reflexivity|]); by vm_compute.
Qed.

(** The text ["  hi  "] typed into either component is recorded and sent
    as ["hi"]. *)
Lemma user_message_is_trimmed_witness :
  let userInput := js "  hi  " in
  let st := Agent.initialState in
  let lst := {| Legacy.message := userInput; Legacy.conversation := [];
                Legacy.error := None; Legacy.isLoading := false |} in
  let entry := {| Agent.role := Agent.user;
                  Agent.content := JStr (trim userInput) |} in
  let sent_content (request : Request) :=
    field (field (field (body request) (js "data")) (js "message"))
          (js "content") in
  (trim userInput <> [] /\ Legacy.message lst = userInput
   /\ trim userInput = js "hi")
  /\ (exists st1 request,
        Agent.submitMessage_start userInput st = (st1, Some request)
        /\ Agent.conversation st1 = Agent.conversation st ++ [entry]
        /\ sent_content request = Some (JStr (trim userInput)))
  /\ (exists lst1 request,
        Legacy.handleSubmit_start lst = (lst1, Some request)
        /\ Legacy.conversation lst1 = Legacy.conversation lst ++ [entry]
        /\ sent_content request = Some (JStr (trim userInput)))
  /\ (exists l r, userInput = l ++ trim userInput ++ r
                  /\ blank l /\ blank r).
Proof.
  intros userInput st lst entry sent_content.
  split; [split; [by vm_compute | split; reflexivity]|].
  apply (user_message_is_trimmed userInput st lst);
    [by vm_compute | reflexivity].
Defined.

(** The envelope for ["hello"] from a mounted component, through the
    relay. *)
Lemma envelope_sent_and_forwarded_witness :
  let userInput := js " hello " in
  let st := Agent.setUserId (js "u1")
              (Agent.setSessionId (js "s1") Agent.initialState) in
  let envelope :=
    JObj [(js "data",
           JObj [(js "message",
                  JObj [(js "role", JStr (js "user"));
                        (js "content", JStr (js "hello"))])]);
          (js "stateful", JBool true);
          (js "stream", JBool false);
          (js "user_id", JStr (js "u1"));
          (js "session_id", JStr (js "s1"));
          (js "verbose", JBool false)] in
  (* an upstream that answers with the document it was sent *)
  let echo : Request -> outcome := λ call,
    inr {| status := 200; text := inr [];
           json_body := match body call with
                        | Some document => inr document
                        | None => inl (mkError (js "no body"))
                        end |} in
  trim userInput <> []
  /\ exists request,
       (Agent.submitMessage_start userInput st).2 = Some request
       /\ body request = Some envelope
       /\ Relay.sent
            (Relay.handler Relay.chatConfig_flowURL (Some (js "sk0w")) echo
               (Relay.mkReq (method request) (body request)) Relay.fresh).1
          = Relay.Json envelope.
Proof.
  intros userInput st envelope echo. split; [by vm_compute|].
  destruct (envelope_sent_and_forwarded userInput st)
    as (st1 & request & Hstart & _ & _ & Hbody & Hrelay); [by vm_compute|].
  exists request. split; [by rewrite Hstart|]. split; [exact Hbody|].
  destruct (Hrelay Relay.chatConfig_flowURL (Some (js "sk0w")) echo
              Relay.fresh) as (call & _ & _ & _ & Hcall & _ & Hanswer & _).
  apply (Hanswer {| status := 200; text := inr [];
                    json_body := inr envelope |} envelope);
    [|reflexivity|reflexivity].
  unfold echo. rewrite Hcall, Hbody. reflexivity.
Defined.

(** * Further properties of the relay *)

Section RelayBranches.

Variable flowURL : jstring.
Variable ZEROWIDTH_API_KEY : option jstring.
Variable fetch : Request -> outcome.

Let handler := Relay.handler flowURL ZEROWIDTH_API_KEY fetch.
Let upstream_request := Relay.upstream_request flowURL ZEROWIDTH_API_KEY.

(** X1. A preflight is answered without looking at the body and without
    calling upstream: status 200, no body. *)
Theorem relay_preflight req res :
  Relay.req_method req = js "OPTIONS" ->
  Relay.statusCode (handler req res).1 = 200
  /\ Relay.sent (handler req res).1 = Relay.Ended
  /\ (handler req res).2 = [].
Proof.
  intros Hm. unfold handler, Relay.handler. rewrite Hm.
  destruct (decide (js "OPTIONS" = js "OPTIONS")) as [_|H]; done.
Qed.

(** X2. Any method other than exactly [OPTIONS] or [POST] (methods are
    compared as they are, without case folding) is refused with 405 and
    [{error: "Method not allowed"}]; upstream is not called. *)
Theorem relay_method_not_allowed req res :
  Relay.req_method req <> js "OPTIONS" ->
  Relay.req_method req <> js "POST" ->
  Relay.statusCode (handler req res).1 = 405
  /\ Relay.sent (handler req res).1 =
       Relay.Json (JObj [(js "error", JStr (js "Method not allowed"))])
  /\ (handler req res).2 = [].
Proof.
  intros Ho Hp. unfold handler, Relay.handler.
  destruct (decide (Relay.req_method req = js "OPTIONS")); [done|].
  destruct (decide (Relay.req_method req <> js "POST")); done.
Qed.

(** X3. Upstream is called exactly when the method is [POST], and then
    exactly once: a POST to the configured URL with the request body as
    received, carrying two headers and no other: the JSON content type
    and [Authorization: Bearer <key>], the key reading ["undefined"] when
    the environment variable is not set.  That call is the one upstream
    is consulted with: the handler's result is upstream's answer to it,
    and the JSON document of a 2xx answer is what the handler sends. *)
Theorem relay_upstream_call req res :
  ((handler req res).2 <> [] <-> Relay.req_method req = js "POST")
  /\ (Relay.req_method req = js "POST" ->
      exists call,
        (handler req res).2 = [call]
        /\ url call = flowURL
        /\ method call = js "POST"
        /\ body call = Relay.req_body req
        /\ headers call !! js "Content-Type" = Some (js "application/json")
        /\ headers call !! js "Authorization" =
             Some (js "Bearer " ++ default (js "undefined") ZEROWIDTH_API_KEY)
        /\ (forall k, k <> js "Content-Type" -> k <> js "Authorization" ->
                      headers call !! k = None)
        /\ handler req res
           = Relay.handler flowURL ZEROWIDTH_API_KEY (λ _, fetch call) req res
        /\ (forall r data,
              fetch call = inr r -> ok r = true -> json_body r = inr data ->
              Relay.sent (handler req res).1 = Relay.Json data)).
Proof.
  split.
  - unfold handler, Relay.handler.
    destruct (decide (Relay.req_method req = js "OPTIONS")) as [Ho|Ho].
    { simpl. split; [done|]. intros Hp. rewrite Hp in Ho. by vm_compute in Ho. }
    destruct (decide (Relay.req_method req <> js "POST")) as [Hp|Hp].
    { simpl. split; done. }
    apply dec_stable in Hp.
    destruct (Relay.forward _ _ _ _); simpl; split; done.
  - intros Hm. subst handler.
    exists (upstream_request (Relay.req_body req)).
    rewrite !handler_POST by done. split.
    { by destruct (Relay.forward _ _ _ _). }
    split; [done|]. split; [done|]. split; [done|].
    subst upstream_request. unfold Relay.upstream_request at 1 2 3.
    cbn [headers].
    split; [|split; [|split; [|split]]].
    + rewrite lookup_insert_ne by (by vm_compute). by rewrite lookup_insert_eq.
    + rewrite lookup_insert_eq. unfold Relay.authorization.
      by destruct ZEROWIDTH_API_KEY.
    + intros k Hc Ha.
      rewrite lookup_insert_ne by done. by rewrite lookup_insert_ne by done.
    + reflexivity.
    + intros r data Hr Hok Hdata. unfold Relay.forward.
      rewrite Hr. simpl. rewrite Hok. simpl. by rewrite Hdata.
Qed.

(** X4. A 2xx upstream response whose body does not parse as JSON is
    answered like any other failure: status 500, [details] being the
    message of the parse error. *)
Theorem relay_unparseable_success req res r e :
  Relay.req_method req = js "POST" ->
  fetch (upstream_request (Relay.req_body req)) = inr r ->
  ok r = true ->
  json_body r = inl e ->
  Relay.statusCode (handler req res).1 = 500
  /\ Relay.sent (handler req res).1 =
       Relay.Json (JObj [(js "error", JStr (js "Internal Server Error"));
                         (js "details", JStr (Error_message e))]).
Proof.
  intros Hm Hr Hok He. subst handler. rewrite handler_POST by done.
  unfold Relay.forward. fold upstream_request.
  rewrite Hr. simpl. rewrite Hok. simpl. by rewrite He.
Qed.

End RelayBranches.

(** X6. The key reaches nothing but the upstream call: two runs with
    different keys whose upstream calls are answered alike send the same
    response, and their upstream calls differ in the [Authorization]
    header at most. *)
Theorem relay_key_confined flowURL key1 key2 fetch1 fetch2 req res :
  fetch1 (Relay.upstream_request flowURL key1 (Relay.req_body req))
  = fetch2 (Relay.upstream_request flowURL key2 (Relay.req_body req)) ->
  (Relay.handler flowURL key1 fetch1 req res).1
  = (Relay.handler flowURL key2 fetch2 req res).1
  /\ Forall2 (λ c1 c2, url c1 = url c2 /\ method c1 = method c2
                       /\ body c1 = body c2
                       /\ delete (js "Authorization") (headers c1)
                          = delete (js "Authorization") (headers c2))
       (Relay.handler flowURL key1 fetch1 req res).2
       (Relay.handler flowURL key2 fetch2 req res).2.
Proof.
  intros Hf. unfold Relay.handler, Relay.forward. rewrite Hf.
  destruct (decide (Relay.req_method req = js "OPTIONS")).
  { split; [done | constructor]. }
  destruct (decide (Relay.req_method req <> js "POST")).
  { split; [done | constructor]. }
  assert (Hcalls :
    delete (js "Authorization")
      (headers (Relay.upstream_request flowURL key1 (Relay.req_body req)))
    = delete (js "Authorization")
      (headers (Relay.upstream_request flowURL key2 (Relay.req_body req)))).
  { unfold Relay.upstream_request. simpl. by rewrite !delete_insert_eq. }
  match goal with
  | |- context [match ?m with inl _ => _ | inr _ => _ end] => destruct m
  end; simpl; (split; [done|]); by repeat constructor.
Qed.

(** * Further properties of the identity functions *)

Section IdentityMore.

Import Agent.

Implicit Types w : Window.

(** Either the stored value is kept, and then it is non-empty and at
    most 32 long, or a fresh one is generated and stored. *)
Lemma getSessionId_cases (uuid : jstring) w :
  (exists s, sessionStorage w !! js "sessionId" = Some s
             /\ s <> [] /\ (length s <= 32)%nat
             /\ getSessionId uuid (Some w) = (s, Some w))
  \/ getSessionId uuid (Some w) =
       (fresh_id uuid, Some (setSessionItem (js "sessionId") (fresh_id uuid) w)).
Proof.
  destruct (sessionStorage w !! js "sessionId") as [s|] eqn:Hs.
  - destruct (decide (s = [])) as [->|Hne].
    { right. apply getSessionId_regenerates. right. exists []. auto. }
    destruct (decide (length s <= 32)%nat) as [Hle|Hgt].
    + left. exists s. repeat split; try done. by apply getSessionId_keeps.
    + right. apply getSessionId_regenerates. right. exists s.
      split; [done|]. right. lia.
  - right. apply getSessionId_regenerates. by left.
Qed.

Lemma getUserId_cases (uuid : jstring) w :
  (exists s, localStorage w !! js "userId" = Some s
             /\ s <> [] /\ (length s <= 32)%nat
             /\ getUserId uuid (Some w) = (s, Some w))
  \/ getUserId uuid (Some w) =
       (fresh_id uuid, Some (setLocalItem (js "userId") (fresh_id uuid) w)).
Proof.
  destruct (localStorage w !! js "userId") as [s|] eqn:Hs.
  - destruct (decide (s = [])) as [->|Hne].
    { right. apply getUserId_regenerates. right. exists []. auto. }
    destruct (decide (length s <= 32)%nat) as [Hle|Hgt].
    + left. exists s. repeat split; try done. by apply getUserId_keeps.
    + right. apply getUserId_regenerates. right. exists s.
      split; [done|]. right. lia.
  - right. apply getUserId_regenerates. by left.
Qed.

(** X7. Whatever the storage holds and whatever the generator yields,
    with or without a window, the id either function returns is at most
    32 code units long. *)
Theorem identity_is_capped (uuid : jstring) (window : option Window) :
  (length (getSessionId uuid window).1 <= 32)%nat
  /\ (length (getUserId uuid window).1 <= 32)%nat.
Proof.
  destruct window as [w|]; [|simpl; lia]. split.
  - destruct (getSessionId_cases uuid w) as [(s & _ & _ & Hle & ->) | ->];
      [done | apply fresh_id_length].
  - destruct (getUserId_cases uuid w) as [(s & _ & _ & Hle & ->) | ->];
      [done | apply fresh_id_length].
Qed.

(** X8. Once an id has been read, reading again gives the same id and
    leaves the storage alone, whatever the generator would yield this
    time; the id only has to be non-empty. *)
Theorem identity_is_stable (uuid1 uuid2 : jstring) w :
  ((getSessionId uuid1 (Some w)).1 <> [] ->
   getSessionId uuid2 (getSessionId uuid1 (Some w)).2
   = getSessionId uuid1 (Some w))
  /\ ((getUserId uuid1 (Some w)).1 <> [] ->
      getUserId uuid2 (getUserId uuid1 (Some w)).2
      = getUserId uuid1 (Some w)).
Proof.
  split.
  - destruct (getSessionId_cases uuid1 w) as [(s & Hs & Hne & Hle & ->) | ->];
      cbn [fst snd]; intros Hid.
    + by apply getSessionId_keeps.
    + apply getSessionId_keeps;
        [simpl; by rewrite lookup_insert_eq | done | apply fresh_id_length].
  - destruct (getUserId_cases uuid1 w) as [(s & Hs & Hne & Hle & ->) | ->];
      cbn [fst snd]; intros Hid.
    + by apply getUserId_keeps.
    + apply getUserId_keeps;
        [simpl; by rewrite lookup_insert_eq | done | apply fresh_id_length].
Qed.

Lemma getSessionId_writes (uuid : jstring) w :
  exists w', (getSessionId uuid (Some w)).2 = Some w'
             /\ localStorage w' = localStorage w
             /\ forall k, k <> js "sessionId" ->
                          sessionStorage w' !! k = sessionStorage w !! k.
Proof.
  destruct (getSessionId_cases uuid w) as [(s & _ & _ & _ & ->) | ->];
    eexists; (split; [reflexivity|]); (split; [done|]); intros k Hk;
    [done|]. simpl. by rewrite lookup_insert_ne.
Qed.

Lemma getUserId_writes (uuid : jstring) w :
  exists w', (getUserId uuid (Some w)).2 = Some w'
             /\ sessionStorage w' = sessionStorage w
             /\ forall k, k <> js "userId" ->
                          localStorage w' !! k = localStorage w !! k.
Proof.
  destruct (getUserId_cases uuid w) as [(s & _ & _ & _ & ->) | ->];
    eexists; (split; [reflexivity|]); (split; [done|]); intros k Hk;
    [done|]. simpl. by rewrite lookup_insert_ne.
Qed.

(** X9. [getSessionId] writes to the session storage under
    ["sessionId"] only, [getUserId] to the local storage under ["userId"]
    only: the other area and every other key are left as they were. *)
Theorem identity_writes_own_key (uuid : jstring) w :
  (exists w', (getSessionId uuid (Some w)).2 = Some w'
              /\ localStorage w' = localStorage w
              /\ forall k, k <> js "sessionId" ->
                           sessionStorage w' !! k = sessionStorage w !! k)
  /\ (exists w', (getUserId uuid (Some w)).2 = Some w'
                 /\ sessionStorage w' = sessionStorage w
                 /\ forall k, k <> js "userId" ->
                              localStorage w' !! k = localStorage w !! k).
Proof. split; [apply getSessionId_writes | apply getUserId_writes]. Qed.

Lemma filter_split_length (P : N -> Prop) `{!forall c, Decision (P c)}
  (l : jstring) :
  (length (filter P l) + length (filter (λ c, ~ P c) l) = length l)%nat.
Proof.
  induction l as [|c l IH]; [done|].
  rewrite !filter_cons. destruct (decide (P c)) as [Hc|Hc].
  - destruct (decide (~ P c)); [done|]. simpl. lia.
  - destruct (decide (~ P c)); [|done]. simpl. lia.
Qed.

(** X10. For a generated UUID in its textual form, 36 code units of
    which 4 are dashes, the id is the UUID without its dashes: nothing is
    cut off, and it is exactly 32 code units long. *)
Theorem fresh_id_of_uuid (uuid : jstring) :
  length uuid = 36%nat ->
  length (filter (λ c, c = 45) uuid) = 4%nat ->
  fresh_id uuid = filter (λ c, c ≠ 45) uuid
  /\ length (fresh_id uuid) = 32%nat
  /\ 45 ∉ fresh_id uuid.
Proof.
  intros Hlen Hdash.
  pose proof (filter_split_length (λ c, c = 45) uuid) as Hsplit.
  assert (Hrest : length (filter (λ c, c ≠ 45) uuid) = 32%nat) by lia.
  assert (Hid : fresh_id uuid = filter (λ c, c ≠ 45) uuid).
  { unfold fresh_id. apply take_ge. lia. }
  split; [done|]. split; [by rewrite Hid|]. apply fresh_id_no_dash.
Qed.

(** X11. Mounting the component again.  After a first mount that
    obtained non-empty ids: a reload in the same tab finds both ids
    again and writes nothing; a new session (session storage empty, local
    storage kept) finds the same user id and generates a new session
    id. *)
Theorem mount_again (uuid1 uuid2 uuid3 uuid4 : jstring) w :
  let first := mount uuid1 uuid2 (Some w) initialState in
  sessionId first.1 <> [] ->
  userId first.1 <> [] ->
  exists w1,
    first.2 = Some w1
    /\ mount uuid3 uuid4 (Some w1) initialState = (first.1, Some w1)
    /\ let second :=
         mount uuid3 uuid4
           (Some {| sessionStorage := ∅; localStorage := localStorage w1 |})
           initialState in
       userId second.1 = userId first.1
       /\ sessionId second.1 = fresh_id uuid3.
Proof.
  intros first. subst first. unfold mount.
  pose proof (getSessionId_writes uuid1 w) as (ws & Hws & Hloc & _).
  destruct (getSessionId uuid1 (Some w)) as [sid window1] eqn:H1.
  cbn [fst snd] in Hws. subst window1.
  pose proof (getUserId_writes uuid2 ws) as (w1 & Hw1 & Hses & _).
  destruct (getUserId uuid2 (Some ws)) as [uid window2] eqn:H2.
  cbn [fst snd] in Hw1. subst window2. cbn [fst snd sessionId userId setUserId setSessionId]. intros Hsid Huid.
  exists w1. split; [done|].
  (* the session id is still in the session storage of [w1] *)
  assert (Hs1 : getSessionId uuid3 (Some w1) = (sid, Some w1)).
  { destruct (getSessionId_cases uuid1 w)
      as [(s & Hs & Hne & Hle & Heq) | Heq];
      rewrite H1 in Heq; injection Heq as E1 E2; subst.
    - apply getSessionId_keeps; [by rewrite Hses | done | done].
    - apply getSessionId_keeps;
        [rewrite Hses; simpl; by rewrite lookup_insert_eq
        | done | apply fresh_id_length]. }
  assert (Hu1 : forall uuid wx, localStorage wx = localStorage w1 ->
                  getUserId uuid (Some wx) = (uid, Some wx)).
  { intros uuid wx Hx.
    destruct (getUserId_cases uuid2 ws)
      as [(s & Hs & Hne & Hle & Heq) | Heq];
      rewrite H2 in Heq; injection Heq as E1 E2; subst.
    - apply getUserId_keeps; [by rewrite Hx | done | done].
    - apply getUserId_keeps;
        [rewrite Hx; simpl; by rewrite lookup_insert_eq
        | done | apply fresh_id_length]. }
  split.
  - rewrite Hs1. by rewrite (Hu1 uuid4 w1).
  - rewrite getSessionId_regenerates by (left; apply lookup_empty).
    rewrite (Hu1 uuid4) by done. done.
Qed.

End IdentityMore.

(** * Further properties of a turn *)

Section TurnMore.

Import Agent.

Variable fetch : Request -> outcome.

Implicit Types (userInput : jstring) (st : State).

(** A whole turn, in terms of what the [try] block made of the
    response. *)
Lemma submitMessage_turn userInput st :
  trim userInput <> [] ->
  submitMessage fetch userInput st =
    (submitMessage_settle
       (fetch (proxy_request (payload (userMessage userInput) st)))
       (setIsLoading true
          (setConversation (λ prev, prev ++ [userMessage userInput])
             (setError None (setMessage [] st)))),
     [proxy_request (payload (userMessage userInput) st)]).
Proof.
  intros Hne. unfold submitMessage.
  by rewrite (submitMessage_start_nonblank _ _ Hne).
Qed.

(** X12. A turn with a non-blank input, whatever the network does,
    issues exactly one request and ends with the input field empty, the
    busy flag down and the ids and hover state untouched; and either a
    reply was appended after the user entry and the error is null, or
    only the user entry was appended and the error is set.  Never both,
    never neither. *)
Theorem turn_outcome userInput st :
  trim userInput <> [] ->
  let st' := (submitMessage fetch userInput st).1 in
  length (submitMessage fetch userInput st).2 = 1%nat
  /\ message st' = []
  /\ isLoading st' = false
  /\ sessionId st' = sessionId st /\ userId st' = userId st
  /\ hoveredIndex st' = hoveredIndex st
  /\ isSubmitHovered st' = isSubmitHovered st
  /\ ((error st' = None
       /\ exists reply,
            conversation st' =
              conversation st
              ++ [userMessage userInput;
                  {| role := agent; content := reply |}])
      \/ (error st' <> None
          /\ conversation st' = conversation st ++ [userMessage userInput])).
Proof.
  intros Hne st'. subst st'. rewrite (submitMessage_turn _ _ Hne).
  unfold submitMessage_settle.
  destruct (receive _) as [err|reply]; simpl; repeat (split; [done|]).
  - right. by split.
  - left. split; [done|]. exists reply. by rewrite <- app_assoc.
Qed.

(** X13. When the request itself fails (the network is down, the
    connection is refused), the error shown is the message of that
    failure, and only the user entry was appended. *)
Theorem network_failure_is_reported userInput st e :
  trim userInput <> [] ->
  fetch (proxy_request (payload (userMessage userInput) st)) = inl e ->
  let st' := (submitMessage fetch userInput st).1 in
  error st' = Some (Error_message e)
  /\ conversation st' = conversation st ++ [userMessage userInput]
  /\ isLoading st' = false.
Proof.
  intros Hne He st'. subst st'. rewrite (submitMessage_turn _ _ Hne).
  rewrite He. done.
Qed.

(** X14. A 2xx response whose body is not JSON, or is the JSON value
    [null], is not answered with the fallback text: no agent entry is
    appended and an error is shown instead (for a body that does not
    parse, the message of the parse error). *)
Theorem unusable_body_is_an_error userInput st r :
  trim userInput <> [] ->
  fetch (proxy_request (payload (userMessage userInput) st)) = inr r ->
  ok r = true ->
  (exists e, json_body r = inl e) \/ json_body r = inr JNull ->
  let st' := (submitMessage fetch userInput st).1 in
  conversation st' = conversation st ++ [userMessage userInput]
  /\ error st' <> None
  /\ (forall e, json_body r = inl e -> error st' = Some (Error_message e)).
Proof.
  intros Hne Hr Hok Hbody st'. subst st'.
  rewrite (submitMessage_turn _ _ Hne), Hr.
  unfold submitMessage_settle, receive. simpl. rewrite Hok. simpl.
  destruct Hbody as [[e ->] | ->]; simpl;
    (split; [done|]); (split; [done|]); intros e' [=]; by subst.
Qed.

(** X15. What the reply is, for every response document.  Only [null]
    makes reading it throw.  Otherwise the reply is the value at
    [output_data.content] as it is, whatever its type, when there is one
    and it is truthy, and the fallback text in every other case (no
    [output_data], no [content], or a [content] that is [null], [false],
    zero or the empty string). *)
Theorem agentReply_spec data :
  (data = JNull -> exists e, agentReply data = inl e)
  /\ (data <> JNull ->
      agentReply data =
        inr match output_content data with
            | Some c => if truthy (Some c) then c else fallback
            | None => fallback
            end).
Proof.
  split; [intros ->; by eexists|]. intros Hnull.
  unfold agentReply, output_content.
  destruct data as [| | | | |props]; try done. simpl.
  destruct (own_property props (js "output_data")) as [od|]; [|done].
  destruct od as [|[]|q|[]| |props']; simpl; try done.
  - by destruct (negb _).
  - destruct (own_property props' (js "content")) as [c|]; [|done].
    simpl. by destruct c as [|[]|q|[]| |]; simpl; try destruct (negb _).
Qed.

(** X16. Text typed while the reply is awaited survives a failed turn
    and is wiped by a successful one: the field is cleared again when
    the reply arrives. *)
Theorem typed_while_waiting userInput (typed : jstring) o st :
  trim userInput <> [] ->
  let waiting := setMessage typed (submitMessage_start userInput st).1 in
  let st' := submitMessage_settle o waiting in
  (error st' = None /\ message st' = []
   /\ length (conversation st') = S (length (conversation waiting)))
  \/ (error st' <> None /\ message st' = typed
      /\ conversation st' = conversation waiting).
Proof.
  intros Hne waiting st'. subst waiting st'.
  rewrite (submitMessage_start_nonblank _ _ Hne).
  unfold submitMessage_settle.
  destruct (receive o) as [err|reply]; simpl.
  - right. done.
  - left. split; [done|]. split; [done|]. rewrite !length_app. simpl. lia.
Qed.

End TurnMore.

(** * Properties of the conversation over time *)

Section OverTime.

Import Agent Client Tally.

Implicit Types (c : Client) (st : State) (e : Event).

Lemma trimStart_fixed (s : jstring) (a : N) (t : jstring) :
  s = a :: t -> isWhiteSpace a = false -> trimStart s = s.
Proof. intros -> Ha. simpl. by rewrite Ha. Qed.

(** Trimming what is already trimmed changes nothing. *)
Lemma trim_trim (s : jstring) : trim (trim s) = trim s.
Proof.
  destruct (trim s) as [|a t] eqn:Ht; [done|].
  pose proof (trim_head _ _ _ Ht) as Ha.
  unfold trim at 1, trimEnd. rewrite <- Ht.
  rewrite (trimStart_fixed (trim s) a t Ht Ha).
  destruct (reverse (trim s)) as [|d u] eqn:Hr.
  { apply (f_equal reverse) in Hr. rewrite reverse_involutive in Hr.
    by rewrite Hr. }
  assert (Hlast : trim s = reverse u ++ [d]).
  { apply (f_equal reverse) in Hr. rewrite reverse_involutive in Hr.
    by rewrite Hr, reverse_cons. }
  rewrite (trimStart_fixed (d :: u) d u eq_refl (trim_last _ _ _ Hlast)).
  by rewrite <- Hr, reverse_involutive.
Qed.

Lemma userMessage_trimmed (userInput : jstring) :
  trim userInput <> [] -> trimmed_entry (userMessage userInput).
Proof.
  intros Hne _. exists (trim userInput). split; [done|]. split; [done|].
  apply trim_trim.
Qed.

(** What one event does to the conversation, the awaited requests and
    the ids: nothing, or a user entry and a request, or the end of a
    request with at most one agent entry. *)
Lemma step_effect c e c' :
  step c e = Some c' ->
  (userId (ui c') = userId (ui c) /\ sessionId (ui c') = sessionId (ui c))
  /\ ((conversation (ui c') = conversation (ui c)
       /\ inflight c' = inflight c)
      \/ (exists userInput,
            trim userInput <> []
            /\ conversation (ui c') =
                 conversation (ui c) ++ [userMessage userInput]
            /\ inflight c' =
                 inflight c
                 ++ [proxy_request (payload (userMessage userInput) (ui c))])
      \/ (exists i request,
            inflight c !! i = Some request
            /\ inflight c' = delete i (inflight c)
            /\ (conversation (ui c') = conversation (ui c)
                \/ exists reply,
                     conversation (ui c') =
                       conversation (ui c)
                       ++ [{| role := agent; content := reply |}]))).
Proof.
  assert (Hdispatch : forall userInput c0,
    (userId (ui (dispatch userInput c0)) = userId (ui c0)
     /\ sessionId (ui (dispatch userInput c0)) = sessionId (ui c0))
    /\ ((conversation (ui (dispatch userInput c0)) = conversation (ui c0)
         /\ inflight (dispatch userInput c0) = inflight c0)
        \/ (trim userInput <> []
            /\ conversation (ui (dispatch userInput c0)) =
                 conversation (ui c0) ++ [userMessage userInput]
            /\ inflight (dispatch userInput c0) =
                 inflight c0
                 ++ [proxy_request
                       (payload (userMessage userInput) (ui c0))]))).
  { intros userInput c0. unfold dispatch.
    destruct (decide (trim userInput = [])) as [Hb|Hne].
    - rewrite (submitMessage_start_blank _ _ Hb). simpl.
      split; [done|]. left. by rewrite app_nil_r.
    - rewrite (submitMessage_start_nonblank _ _ Hne). simpl.
      split; [done|]. right. done. }
  destruct e; simpl.
  - intros [= <-]. split; [done|]. by left.
  - destruct (submit_disabled (ui c)); [done|]. intros [= <-].
    destruct (Hdispatch (message (ui c)) c) as [Hids [H|H]];
      (split; [done|]); [by left | right; left; eauto].
  - destruct (prompt_disabled (ui c)); [done|]. intros [= <-].
    split; [done|]. by left.
  - destruct (timers c) as [|deferred rest]; [done|]. intros [= <-].
    destruct (Hdispatch deferred
                {| ui := ui c; timers := rest; inflight := inflight c |})
      as [Hids [H|H]]; (split; [done|]); [by left | right; left; eauto].
  - intros [= <-]. split; [|left]; unfold handlePromptMouseOver; simpl;
      by destruct (negb _).
  - intros [= <-]. split; [done|]. by left.
  - intros [= <-]. split; [done|]. by left.
  - intros [= <-]. split; [done|]. by left.
  - destruct (inflight c !! i) as [request|] eqn:Hi; [|done].
    intros [= <-]. simpl. unfold submitMessage_settle.
    split; [by destruct (receive o)|].
    right; right. exists i, request. split; [done|]. split; [done|].
    destruct (receive o); simpl; [by left | right; eauto].
Qed.

(** A property kept by every event is kept by every run. *)
Lemma run_keeps (P : Client -> Prop) :
  (forall c e c', P c -> step c e = Some c' -> P c') ->
  forall events c c', P c -> run c events = Some c' -> P c'.
Proof.
  intros Hstep events. induction events as [|e events IH]; simpl; intros c c' Hc.
  - by intros [= <-].
  - destruct (step c e) as [c1|] eqn:He; [|done]. apply IH. by eapply Hstep.
Qed.

(** X17. The conversation only grows: whatever happens, in whatever
    order, the entries there were stay where they were and new ones are
    added at the end. *)
Theorem conversation_only_grows events c c' :
  run c events = Some c' ->
  conversation (ui c) `prefix_of` conversation (ui c').
Proof.
  intros Hrun.
  apply (run_keeps (λ c1, conversation (ui c) `prefix_of` conversation (ui c1))
           ) with (events := events) (c := c); [|done|done].
  intros c1 e c2 Hpre Hstep.
  destruct (step_effect _ _ _ Hstep)
    as [_ [[-> _] | [(u & _ & -> & _) | (i & rq & _ & _ & [-> | [reply ->]])]]];
    try done; by apply prefix_app_r.
Qed.

(** X18. Replies never outnumber questions: the agent entries and the
    requests still awaited together are at most as many as the user
    entries, before and after every event. *)
Theorem replies_answer_questions events c c' :
  (length (entries agent (conversation (ui c))) + length (inflight c)
   <= length (entries user (conversation (ui c))))%nat ->
  run c events = Some c' ->
  (length (entries agent (conversation (ui c'))) + length (inflight c')
   <= length (entries user (conversation (ui c'))))%nat.
Proof.
  intros Hc Hrun.
  apply (run_keeps (λ c1,
    (length (entries agent (conversation (ui c1))) + length (inflight c1)
     <= length (entries user (conversation (ui c1))))%nat))
    with (events := events) (c := c); [|done|done].
  clear. intros c e c' Hc Hstep. unfold entries in *.
  destruct (step_effect _ _ _ Hstep)
    as [_ [[-> ->] | [(u & _ & -> & ->) | (i & rq & Hi & -> & Hconv)]]].
  - done.
  - rewrite !filter_app, !length_app. simpl. lia.
  - rewrite length_delete by eauto.
    assert (0 < length (inflight c))%nat.
    { apply lookup_lt_Some in Hi. lia. }
    destruct Hconv as [-> | [reply ->]]; [lia|].
    rewrite !filter_app, !length_app. simpl. lia.
Qed.

(** X19. The ids of the component never change after mounting, and
    every request it has out is a POST to [/api/proxy] that carries those
    ids and no [Authorization] header. *)
Theorem requests_carry_ids events c c' :
  Forall (carries (userId (ui c)) (sessionId (ui c))) (inflight c) ->
  run c events = Some c' ->
  userId (ui c') = userId (ui c)
  /\ sessionId (ui c') = sessionId (ui c)
  /\ Forall (carries (userId (ui c)) (sessionId (ui c))) (inflight c').
Proof.
  intros Hc Hrun.
  apply (run_keeps (λ c1,
    userId (ui c1) = userId (ui c) /\ sessionId (ui c1) = sessionId (ui c)
    /\ Forall (carries (userId (ui c)) (sessionId (ui c))) (inflight c1)))
    with (events := events) (c := c); [|done|done].
  clear. intros c1 e c2 (Hu & Hs & Hall) Hstep.
  destruct (step_effect _ _ _ Hstep)
    as [[-> ->] [[_ ->] | [(u & _ & _ & ->) | (i & rq & Hi & -> & _)]]];
    (split; [done|]); (split; [done|]).
  - done.
  - apply Forall_app. split; [done|]. constructor; [|constructor].
    unfold carries. simpl. rewrite Hu, Hs. done.
  - apply Forall_forall. intros x Hx%list_elem_of_delete_inv.
    by eapply Forall_forall in Hall.
Qed.

(** X20. Every user entry of the conversation is a non-empty string
    without white space at either end, after every event as before. *)
Theorem user_entries_are_trimmed events c c' :
  Forall trimmed_entry (conversation (ui c)) ->
  run c events = Some c' ->
  Forall trimmed_entry (conversation (ui c')).
Proof.
  intros Hc Hrun.
  apply (run_keeps (λ c1, Forall trimmed_entry (conversation (ui c1))))
    with (events := events) (c := c); [|done|done].
  clear. intros c e c' Hc Hstep.
  destruct (step_effect _ _ _ Hstep)
    as [_ [[-> _] | [(u & Hu & -> & _) | (i & rq & _ & _ & [-> | [reply ->]])]]];
    try done.
  - apply Forall_app. split; [done|].
    constructor; [by apply userMessage_trimmed | constructor].
  - apply Forall_app. split; [done|]. constructor; [|constructor].
    intros Hrole. done.
Qed.

(** X21. Clicking a suggested prompt and letting its timer run is the
    same as typing the prompt and submitting the form. *)
Theorem prompt_is_type_and_submit (prompt : jstring) c :
  isLoading (ui c) = false ->
  timers c = [] ->
  run c [PromptClicked prompt; TimerFired]
  = run c [Typed prompt; FormSubmitted]
  /\ is_Some (run c [PromptClicked prompt; TimerFired]).
Proof.
  intros Hidle Ht. cbn [run step].
  unfold prompt_disabled, submit_disabled, handlePromptClick, with_ui.
  rewrite Hidle. cbn [ui timers inflight]. rewrite Ht. cbn [app].
  cbn [isLoading setMessage message]. rewrite Hidle. split; eauto.
Qed.

End OverTime.

(** * The component talking to the relay *)

Section EndToEnd.

Import Agent.

Variable stringify : json -> jstring.
Variable flowURL : jstring.
Variable key : option jstring.
Variable upstream : Request -> outcome.

Let fetch := Wire.through_relay stringify flowURL key upstream.

Implicit Types (userInput : jstring) (st : State).

(** The upstream call a turn leads to. *)
Let call userInput st : Request :=
  Relay.upstream_request flowURL key
    (Some (payload (userMessage userInput) st)).

Lemma through_relay_turn userInput st :
  fetch (proxy_request (payload (userMessage userInput) st)) =
    inr (Wire.delivered stringify
           (Relay.handler flowURL key upstream
              (Relay.mkReq (js "POST")
                 (Some (payload (userMessage userInput) st)))
              Relay.fresh).1).
Proof. reflexivity. Qed.

(** X22. Whatever goes wrong upstream, a thrown call or any status
    outside 200-299, the user is shown ["Server error: 500"]: neither
    the upstream status nor the relay's diagnostic text reaches the
    error line, and no agent entry is appended. *)
Theorem upstream_failure_shows_500 userInput st :
  trim userInput <> [] ->
  (exists e, upstream (call userInput st) = inl e)
  \/ (exists r, upstream (call userInput st) = inr r /\ ok r = false) ->
  let st' := (submitMessage fetch userInput st).1 in
  error st' = Some (js "Server error: 500")
  /\ conversation st' = conversation st ++ [userMessage userInput].
Proof.
  intros Hne Hup st'. subst st'.
  rewrite (submitMessage_turn _ _ _ Hne), through_relay_turn.
  rewrite handler_POST by done. unfold Relay.forward.
  cbn [Relay.req_body]. unfold call in Hup.
  destruct Hup as [[e ->] | (r & -> & Hok)]; simpl.
  - done.
  - rewrite Hok. simpl. by destruct (text r).
Qed.

(** X23. A reply makes it through both hops: when upstream answers 2xx
    with a JSON body holding a non-empty string at
    [output_data.content], that string is the agent entry appended after
    the user entry, and no error is shown. *)
Theorem upstream_reply_reaches_user userInput st r data X :
  trim userInput <> [] ->
  upstream (call userInput st) = inr r ->
  ok r = true ->
  json_body r = inr data ->
  output_content data = Some (JStr X) ->
  X <> [] ->
  let st' := (submitMessage fetch userInput st).1 in
  conversation st' =
    conversation st
    ++ [userMessage userInput; {| role := agent; content := JStr X |}]
  /\ error st' = None.
Proof.
  intros Hne Hr Hok Hdata HX HXne st'. subst st'.
  rewrite (submitMessage_turn _ _ _ Hne), through_relay_turn.
  rewrite handler_POST by done. unfold Relay.forward.
  cbn [Relay.req_body]. unfold call in Hr. rewrite Hr. simpl. rewrite Hok. simpl.
  rewrite Hdata. simpl.
  unfold submitMessage_settle, receive. simpl.
  rewrite (agentReply_content _ _ HX HXne). simpl.
  by rewrite <- app_assoc.
Qed.

End EndToEnd.

(** * The two versions of the component *)

Section Versions.

Import Agent.

Variable fetch : Request -> outcome.

(** X24. On a non-blank input, the earlier component and the current
    one do the same to the conversation, the error and the busy flag,
    and send the same message.  Their requests go to the same URL with
    the same method and headers, and their bodies are the same envelope
    except for the two ids, which the earlier component hard-codes. *)
Theorem versions_agree (o : outcome) (st : State) (lst : Legacy.State) :
  trim (Legacy.message lst) <> [] ->
  Legacy.conversation lst = conversation st ->
  let envelope (uid sid : jstring) :=
    JObj [(js "data",
           JObj [(js "message",
                  JObj [(js "role", JStr (js "user"));
                        (js "content", JStr (trim (Legacy.message lst)))])]);
          (js "stateful", JBool true);
          (js "stream", JBool false);
          (js "user_id", JStr uid);
          (js "session_id", JStr sid);
          (js "verbose", JBool false)] in
  exists st1 request lst1 lrequest,
    submitMessage_start (Legacy.message lst) st = (st1, Some request)
    /\ Legacy.handleSubmit_start lst = (lst1, Some lrequest)
    /\ field (body lrequest) (js "data") = field (body request) (js "data")
    /\ field (body lrequest) (js "user_id")
       = Some (JStr (js "userID_RandomID"))
    /\ field (body lrequest) (js "session_id")
       = Some (JStr (js "sessionID_RandomID"))
    /\ Legacy.conversation (Legacy.handleSubmit_settle o lst1)
       = conversation (submitMessage_settle o st1)
    /\ Legacy.error (Legacy.handleSubmit_settle o lst1)
       = error (submitMessage_settle o st1)
    /\ Legacy.isLoading (Legacy.handleSubmit_settle o lst1)
       = isLoading (submitMessage_settle o st1)
    /\ url lrequest = url request
    /\ method lrequest = method request
    /\ headers lrequest = headers request
    /\ body request = Some (envelope (userId st) (sessionId st))
    /\ body lrequest =
         Some (envelope (js "userID_RandomID") (js "sessionID_RandomID")).
Proof.
  intros Hne Hconv envelope. subst envelope.
  rewrite (submitMessage_start_nonblank _ _ Hne).
  unfold Legacy.handleSubmit_start.
  destruct (trim (Legacy.message lst)) eqn:Ht; [done|]. simpl.
  eexists _, _, _, _. split; [reflexivity|]. split; [reflexivity|].
  split; [done|]. split; [done|]. split; [done|].
  unfold Legacy.handleSubmit_settle, submitMessage_settle.
  split; [|split; [|split]];
    try (destruct (receive o); simpl; by rewrite ?Hconv).
  do 3 (split; [reflexivity|]).
  unfold userMessage. rewrite Ht. split; reflexivity.
Qed.

(** X25. A turn of the earlier component on a non-blank input: one
    request; afterwards the busy flag is down, and either a reply was
    appended, the error is null and the input field is empty, or only
    the user entry was appended, the error is set and the input field
    still holds the text that was submitted. *)
Theorem Legacy_turn_outcome (lst : Legacy.State) :
  trim (Legacy.message lst) <> [] ->
  let lst' := (Legacy.handleSubmit fetch lst).1 in
  length (Legacy.handleSubmit fetch lst).2 = 1%nat
  /\ Legacy.isLoading lst' = false
  /\ ((Legacy.error lst' = None
       /\ Legacy.message lst' = []
       /\ exists reply,
            Legacy.conversation lst' =
              Legacy.conversation lst
              ++ [userMessage (Legacy.message lst);
                  {| role := agent; content := reply |}])
      \/ (Legacy.error lst' <> None
          /\ Legacy.message lst' = Legacy.message lst
          /\ Legacy.conversation lst' =
               Legacy.conversation lst ++ [userMessage (Legacy.message lst)])).
Proof.
  intros Hne lst'. subst lst'.
  unfold Legacy.handleSubmit, Legacy.handleSubmit_start.
  destruct (trim (Legacy.message lst)) eqn:Ht; [done|]. simpl.
  unfold Legacy.handleSubmit_settle.
  destruct (receive _) as [err|reply]; simpl; (split; [done|]); (split; [done|]).
  - right. done.
  - left. split; [done|]. split; [done|]. exists reply.
    by rewrite <- app_assoc.
Qed.

End Versions.

(** * The error line and the status *)

Lemma digits_inj (d d' : Decimal.uint) : digits d = digits d' -> d = d'.
Proof.
  revert d'. induction d as [|d IH|d IH|d IH|d IH|d IH|d IH|d IH|d IH|d IH|d IH];
    intros [|d'|d'|d'|d'|d'|d'|d'|d'|d'|d']; simpl; try done;
    intros [= H]; f_equal; by apply IH.
Qed.

Lemma digits_are_digits (d : Decimal.uint) :
  Forall (λ c, 48 <= c <= 57) (digits d).
Proof. induction d; simpl; constructor; (lia || done). Qed.

Lemma receive_not_ok (r : Response) :
  ok r = false ->
  Agent.receive (inr r)
  = inl (mkError (js "Server error: " ++ toString (status r))).
Proof.
  intros Hok. unfold Agent.receive, mbind, result_bind. by rewrite Hok.
Qed.

(** X26. The number in the error line is the status, in decimal
    digits, and nothing but the status: two responses give the same
    ["Server error: ..."] text only if their statuses are equal. *)
Theorem error_line_identifies_status (r1 r2 : Response) e1 e2 :
  ok r1 = false -> ok r2 = false ->
  Agent.receive (inr r1) = inl e1 ->
  Agent.receive (inr r2) = inl e2 ->
  (Error_message e1 = Error_message e2 <-> status r1 = status r2)
  /\ exists number,
       Error_message e1 = js "Server error: " ++ number
       /\ number <> []
       /\ Forall (λ c, 48 <= c <= 57) number.
Proof.
  intros H1 H2. rewrite (receive_not_ok _ H1), (receive_not_ok _ H2).
  intros He1 He2.
  assert (Hm1 : Error_message e1
                = js "Server error: " ++ toString (status r1)).
  { by injection He1 as <-. }
  assert (Hm2 : Error_message e2
                = js "Server error: " ++ toString (status r2)).
  { by injection He2 as <-. }
  rewrite Hm1, Hm2. clear.
  split.
  - split.
    + intros H. apply (app_inv_head (js "Server error: ")) in H.
      by apply DecimalN.Unsigned.to_uint_inj, digits_inj.
    + by intros ->.
  - eexists. split; [reflexivity|]. split; [|apply digits_are_digits].
    unfold toString. intros H.
    assert (Hnil : N.to_uint (status r1) = Nil) by (by apply digits_inj).
    apply (f_equal N.of_uint) in Hnil.
    rewrite DecimalN.Unsigned.of_to in Hnil.
    rewrite Hnil in H. by vm_compute in H.
Qed.

(** * Runs of the statements above on concrete inputs *)

Lemma relay_preflight_witness :
  let fetch : Request -> outcome := λ _, inl (mkError (js "unreachable")) in
  let req := Relay.mkReq (js "OPTIONS") (Some (JStr (js "ignored"))) in
  let out := Relay.handler Relay.chatConfig_flowURL None fetch req
               Relay.fresh in
  Relay.req_method req = js "OPTIONS"
  /\ Relay.statusCode out.1 = 200
  /\ Relay.sent out.1 = Relay.Ended
  /\ out.2 = [].
Proof.
  intros fetch req out. split; [reflexivity|].
  apply (relay_preflight Relay.chatConfig_flowURL None fetch req Relay.fresh).
  reflexivity.
Defined.

Lemma relay_method_not_allowed_witness :
  let fetch : Request -> outcome := λ _, inl (mkError (js "unreachable")) in
  let req := Relay.mkReq (js "post") (Some (JObj [])) in
  let out := Relay.handler Relay.chatConfig_flowURL None fetch req
               Relay.fresh in
  (Relay.req_method req <> js "OPTIONS" /\ Relay.req_method req <> js "POST")
  /\ Relay.statusCode out.1 = 405
  /\ Relay.sent out.1 =
       Relay.Json (JObj [(js "error", JStr (js "Method not allowed"))])
  /\ out.2 = [].
Proof.
  intros fetch req out. split; [split; by vm_compute|].
  apply (relay_method_not_allowed Relay.chatConfig_flowURL None fetch req
           Relay.fresh); by vm_compute.
Defined.

Lemma relay_upstream_call_witness :
  let fetch : Request -> outcome := λ _, inl (mkError (js "fetch failed")) in
  let req := Relay.mkReq (js "POST") (Some (JObj [])) in
  let out := Relay.handler Relay.chatConfig_flowURL None fetch req
               Relay.fresh in
  Relay.req_method req = js "POST"
  /\ out.2 <> []
  /\ exists call,
       out.2 = [call]
       /\ url call = Relay.chatConfig_flowURL
       /\ headers call !! js "Authorization" = Some (js "Bearer undefined").
Proof.
  intros fetch req out.
  destruct (relay_upstream_call Relay.chatConfig_flowURL None fetch req
              Relay.fresh) as [Hiff Hcall].
  split; [reflexivity|]. split; [by apply Hiff|].
  destruct (Hcall eq_refl) as (call & Hout & Hurl & _ & _ & _ & Hauth & _).
  exists call. split; [exact Hout|]. split; [exact Hurl | exact Hauth].
Defined.

Lemma relay_unparseable_success_witness :
  let e := mkError (js "Unexpected token < in JSON at position 0") in
  let r := {| status := 200; text := inr (js "<html>"); json_body := inl e |} in
  let fetch : Request -> outcome := λ _, inr r in
  let req := Relay.mkReq (js "POST") (Some (JObj [])) in
  let out := Relay.handler Relay.chatConfig_flowURL None fetch req
               Relay.fresh in
  (Relay.req_method req = js "POST" /\ ok r = true)
  /\ Relay.statusCode out.1 = 500
  /\ Relay.sent out.1 =
       Relay.Json (JObj [(js "error", JStr (js "Internal Server Error"));
                         (js "details", JStr (Error_message e))]).
Proof.
  intros e r fetch req out. split; [split; reflexivity|].
  apply (relay_unparseable_success Relay.chatConfig_flowURL None fetch req
           Relay.fresh r e); reflexivity.
Defined.

Lemma relay_key_confined_witness :
  let r := {| status := 200; text := inr []; json_body := inr (JObj []) |} in
  let fetch : Request -> outcome := λ _, inr r in
  let req := Relay.mkReq (js "POST") (Some (JObj [])) in
  (Relay.handler Relay.chatConfig_flowURL (Some (js "sk0w-1")) fetch req
     Relay.fresh).1
  = (Relay.handler Relay.chatConfig_flowURL (Some (js "sk0w-2")) fetch req
       Relay.fresh).1.
Proof.
  intros r fetch req.
  apply (relay_key_confined Relay.chatConfig_flowURL (Some (js "sk0w-1"))
           (Some (js "sk0w-2")) fetch fetch req Relay.fresh).
  reflexivity.
Defined.

Lemma identity_is_stable_witness :
  let w := {| Agent.sessionStorage := ∅; Agent.localStorage := ∅ |} in
  let uuid1 := js "123e4567-e89b-42d3-a456-426614174000" in
  let uuid2 := js "9b2e4567-e89b-42d3-a456-426614174abc" in
  (Agent.getSessionId uuid1 (Some w)).1 <> []
  /\ (Agent.getSessionId uuid2 (Agent.getSessionId uuid1 (Some w)).2).1
     = js "123e4567e89b42d3a456426614174000".
Proof.
  intros w uuid1 uuid2. split; [by vm_compute|].
  destruct (identity_is_stable uuid1 uuid2 w) as [Hs _].
  rewrite Hs; by vm_compute.
Defined.

Lemma fresh_id_of_uuid_witness :
  let uuid := js "123e4567-e89b-42d3-a456-426614174000" in
  (length uuid = 36%nat /\ length (filter (λ c, c = 45) uuid) = 4%nat)
  /\ Agent.fresh_id uuid = js "123e4567e89b42d3a456426614174000"
  /\ length (Agent.fresh_id uuid) = 32%nat.
Proof.
  intros uuid. split; [split; reflexivity|].
  destruct (fresh_id_of_uuid uuid eq_refl eq_refl) as (Hid & Hlen & _).
  split; [rewrite Hid; reflexivity | exact Hlen].
Defined.

Lemma mount_again_witness :
  let w := {| Agent.sessionStorage := ∅; Agent.localStorage := ∅ |} in
  let uuid1 := js "123e4567-e89b-42d3-a456-426614174000" in
  let uuid2 := js "9b2e4567-e89b-42d3-a456-426614174abc" in
  let uuid3 := js "00000000-1111-4222-8333-444444444444" in
  let uuid4 := js "55555555-6666-4777-8888-999999999999" in
  let first := Agent.mount uuid1 uuid2 (Some w) Agent.initialState in
  (Agent.sessionId first.1 <> [] /\ Agent.userId first.1 <> [])
  /\ exists w1,
       first.2 = Some w1
       /\ Agent.mount uuid3 uuid4 (Some w1) Agent.initialState
          = (first.1, Some w1)
       /\ let second :=
            Agent.mount uuid3 uuid4
              (Some {| Agent.sessionStorage := ∅;
                       Agent.localStorage := Agent.localStorage w1 |})
              Agent.initialState in
          Agent.userId second.1 = Agent.userId first.1
          /\ Agent.sessionId second.1 = Agent.fresh_id uuid3.
Proof.
  intros w uuid1 uuid2 uuid3 uuid4 first.
  split; [split; by vm_compute|].
  apply (mount_again uuid1 uuid2 uuid3 uuid4 w); by vm_compute.
Defined.

Lemma turn_outcome_witness :
  let fetch : Request -> outcome := λ _, inl (mkError (js "Failed to fetch")) in
  let st' := (Agent.submitMessage fetch (js " hello ")
                Agent.initialState).1 in
  trim (js " hello ") <> []
  /\ Agent.message st' = []
  /\ Agent.isLoading st' = false.
Proof.
  intros fetch st'. split; [by vm_compute|].
  destruct (turn_outcome fetch (js " hello ") Agent.initialState)
    as (_ & Hm & Hl & _); [by vm_compute|].
  split; [exact Hm | exact Hl].
Defined.

Lemma network_failure_is_reported_witness :
  let e := mkError (js "Failed to fetch") in
  let fetch : Request -> outcome := λ _, inl e in
  let st' := (Agent.submitMessage fetch (js " hello ")
                Agent.initialState).1 in
  trim (js " hello ") <> []
  /\ Agent.error st' = Some (js "Failed to fetch")
  /\ Agent.conversation st' = [Agent.userMessage (js " hello ")]
  /\ Agent.isLoading st' = false.
Proof.
  intros e fetch st'. split; [by vm_compute|].
  apply (network_failure_is_reported fetch (js " hello ") Agent.initialState e);
    [by vm_compute | reflexivity].
Defined.

Lemma unusable_body_is_an_error_witness :
  let r := {| status := 200; text := inr (js "null");
              json_body := inr JNull |} in
  let fetch : Request -> outcome := λ _, inr r in
  let st' := (Agent.submitMessage fetch (js "hi") Agent.initialState).1 in
  (trim (js "hi") <> [] /\ ok r = true /\ json_body r = inr JNull)
  /\ Agent.conversation st' = [Agent.userMessage (js "hi")]
  /\ Agent.error st' <> None.
Proof.
  intros r fetch st'. split; [split; [by vm_compute | split; reflexivity]|].
  destruct (unusable_body_is_an_error fetch (js "hi") Agent.initialState r)
    as (Hconv & Herr & _);
    [by vm_compute | reflexivity | reflexivity | by right |].
  split; [exact Hconv | exact Herr].
Defined.

Lemma agentReply_spec_witness :
  let data := JObj [(js "output_data",
                     JObj [(js "content", JNum (Qmake 42 1))])] in
  data <> JNull
  /\ Agent.agentReply data = inr (JNum (Qmake 42 1))
  /\ exists e, Agent.agentReply JNull = inl e.
Proof.
  intros data. split; [done|].
  destruct (agentReply_spec data) as [_ Hreply].
  destruct (agentReply_spec JNull) as [Hnull _].
  split; [rewrite Hreply; done | by apply Hnull].
Defined.

Lemma typed_while_waiting_witness :
  let r := {| status := 502; text := inr []; json_body := inr JNull |} in
  let waiting :=
    Agent.setMessage (js "and another thing")
      (Agent.submitMessage_start (js "hello") Agent.initialState).1 in
  let st' := Agent.submitMessage_settle (inr r) waiting in
  trim (js "hello") <> []
  /\ Agent.error st' <> None
  /\ Agent.message st' = js "and another thing".
Proof.
  intros r waiting st'. split; [by vm_compute|].
  destruct (typed_while_waiting (js "hello") (js "and another thing") (inr r)
              Agent.initialState) as [(He & _) | (He & Hm & _)];
    [by vm_compute | by vm_compute in He |].
  split; [exact He | exact Hm].
Defined.

Lemma conversation_only_grows_witness :
  let c := Client.mounted (js "123e4567-e89b-42d3-a456-426614174000")
             (js "9b2e4567-e89b-42d3-a456-426614174abc")
             (Some (Agent.mkWindow ∅ ∅)) in
  let r := {| status := 500; text := inr []; json_body := inr JNull |} in
  let events := [Client.Typed (js "hi"); Client.FormSubmitted;
                 Client.Settled 0 (inr r)] in
  exists c', Client.run c events = Some c'
             /\ Agent.conversation (Client.ui c)
                `prefix_of` Agent.conversation (Client.ui c').
Proof.
  intros c r events. eexists. split; [reflexivity|].
  apply (conversation_only_grows events c). reflexivity.
Defined.

Lemma replies_answer_questions_witness :
  let c := Client.mounted (js "123e4567-e89b-42d3-a456-426614174000")
             (js "9b2e4567-e89b-42d3-a456-426614174abc")
             (Some (Agent.mkWindow ∅ ∅)) in
  let r := {| status := 200; text := inr [];
              json_body := inr (JObj []) |} in
  let events := [Client.Typed (js "hi"); Client.FormSubmitted;
                 Client.Settled 0 (inr r);
                 Client.PromptClicked (js "Casual");
                 Client.PromptClicked (js "Professional");
                 Client.TimerFired; Client.TimerFired] in
  exists c', Client.run c events = Some c'
             /\ (length (Tally.entries Agent.agent
                           (Agent.conversation (Client.ui c')))
                 + length (Client.inflight c')
                 <= length (Tally.entries Agent.user
                              (Agent.conversation (Client.ui c'))))%nat.
Proof.
  intros c r events. eexists. split; [reflexivity|].
  apply (replies_answer_questions events c); [|reflexivity].
  vm_compute. lia.
Defined.

Lemma requests_carry_ids_witness :
  let c := Client.mounted (js "123e4567-e89b-42d3-a456-426614174000")
             (js "9b2e4567-e89b-42d3-a456-426614174abc")
             (Some (Agent.mkWindow ∅ ∅)) in
  let events := [Client.Typed (js "hi"); Client.FormSubmitted] in
  exists c', Client.run c events = Some c'
             /\ Agent.userId (Client.ui c')
                = js "9b2e4567e89b42d3a456426614174abc"
             /\ Forall (Tally.carries (js "9b2e4567e89b42d3a456426614174abc")
                          (js "123e4567e89b42d3a456426614174000"))
                  (Client.inflight c').
Proof.
  intros c events. eexists. split; [reflexivity|].
  destruct (requests_carry_ids events c _ (Forall_nil_2 _) eq_refl)
    as (Hu & _ & Hall).
  split; [exact Hu | exact Hall].
Defined.

Lemma user_entries_are_trimmed_witness :
  let c := Client.mounted (js "123e4567-e89b-42d3-a456-426614174000")
             (js "9b2e4567-e89b-42d3-a456-426614174abc")
             (Some (Agent.mkWindow ∅ ∅)) in
  let events := [Client.Typed (js "  hi  "); Client.FormSubmitted] in
  exists c', Client.run c events = Some c'
             /\ Forall Tally.trimmed_entry
                  (Agent.conversation (Client.ui c')).
Proof.
  intros c events. eexists. split; [reflexivity|].
  apply (user_entries_are_trimmed events c); [constructor | reflexivity].
Defined.

Lemma prompt_is_type_and_submit_witness :
  let c := Client.mounted (js "123e4567-e89b-42d3-a456-426614174000")
             (js "9b2e4567-e89b-42d3-a456-426614174abc")
             (Some (Agent.mkWindow ∅ ∅)) in
  (Agent.isLoading (Client.ui c) = false /\ Client.timers c = [])
  /\ Client.run c [Client.PromptClicked (js "Casual"); Client.TimerFired]
     = Client.run c [Client.Typed (js "Casual"); Client.FormSubmitted].
Proof.
  intros c. split; [split; reflexivity|].
  apply (prompt_is_type_and_submit (js "Casual") c); reflexivity.
Defined.

Lemma upstream_failure_shows_500_witness :
  let r := {| status := 429; text := inr (js "slow down");
              json_body := inl (mkError (js "Unexpected token")) |} in
  let upstream : Request -> outcome := λ _, inr r in
  let fetch := Wire.through_relay (λ _, []) Relay.chatConfig_flowURL
                 (Some (js "sk0w")) upstream in
  let st' := (Agent.submitMessage fetch (js "hi") Agent.initialState).1 in
  (trim (js "hi") <> [] /\ ok r = false)
  /\ Agent.error st' = Some (js "Server error: 500")
  /\ Agent.conversation st' = [Agent.userMessage (js "hi")].
Proof.
  intros r upstream fetch st'. split; [split; [by vm_compute | reflexivity]|].
  apply (upstream_failure_shows_500 (λ _, []) Relay.chatConfig_flowURL
           (Some (js "sk0w")) upstream (js "hi") Agent.initialState);
    [by vm_compute|].
  right. exists r. split; reflexivity.
Defined.

Lemma upstream_reply_reaches_user_witness :
  let data := JObj [(js "output_data",
                     JObj [(js "content", JStr (js "HOW DO YOU DO"))])] in
  let r := {| status := 201; text := inr []; json_body := inr data |} in
  let upstream : Request -> outcome := λ _, inr r in
  let fetch := Wire.through_relay (λ _, []) Relay.chatConfig_flowURL
                 (Some (js "sk0w")) upstream in
  let st' := (Agent.submitMessage fetch (js "hi") Agent.initialState).1 in
  (trim (js "hi") <> [] /\ ok r = true)
  /\ Agent.conversation st' =
       [Agent.userMessage (js "hi");
        {| Agent.role := Agent.agent;
           Agent.content := JStr (js "HOW DO YOU DO") |}]
  /\ Agent.error st' = None.
Proof.
  intros data r upstream fetch st'.
  split; [split; [by vm_compute | reflexivity]|].
  apply (upstream_reply_reaches_user (λ _, []) Relay.chatConfig_flowURL
           (Some (js "sk0w")) upstream (js "hi") Agent.initialState r data
           (js "HOW DO YOU DO"));
    [by vm_compute | reflexivity | reflexivity | reflexivity | reflexivity
    | by vm_compute].
Defined.

Lemma versions_agree_witness :
  let r := {| status := 503; text := inr []; json_body := inr JNull |} in
  let st := Agent.setUserId (js "u1")
              (Agent.setSessionId (js "s1") Agent.initialState) in
  let lst := {| Legacy.message := js " hello "; Legacy.conversation := [];
                Legacy.error := Some (js "Server error: 500");
                Legacy.isLoading := false |} in
  trim (Legacy.message lst) <> []
  /\ exists st1 request lst1 lrequest,
       Agent.submitMessage_start (Legacy.message lst) st
       = (st1, Some request)
       /\ Legacy.handleSubmit_start lst = (lst1, Some lrequest)
       /\ Legacy.error (Legacy.handleSubmit_settle (inr r) lst1)
          = Agent.error (Agent.submitMessage_settle (inr r) st1)
       /\ headers lrequest = headers request
       /\ field (body request) (js "user_id") = Some (JStr (js "u1"))
       /\ field (body lrequest) (js "user_id")
          = Some (JStr (js "userID_RandomID"))
       /\ field (body lrequest) (js "stream")
          = field (body request) (js "stream").
Proof.
  intros r st lst. split; [by vm_compute|].
  destruct (versions_agree (inr r) st lst)
    as (st1 & rq & lst1 & lrq & Hs & Hl & _ & Hu & _ & _ & He & _
        & _ & _ & Hh & Hb & Hlb);
    [by vm_compute | reflexivity |].
  exists st1, rq, lst1, lrq.
  split; [exact Hs|]. split; [exact Hl|]. split; [exact He|].
  split; [exact Hh|]. rewrite Hb, Hlb. by vm_compute.
Defined.

Lemma Legacy_turn_outcome_witness :
  let fetch : Request -> outcome := λ _, inl (mkError (js "Failed to fetch")) in
  let lst := {| Legacy.message := js " hello "; Legacy.conversation := [];
                Legacy.error := None; Legacy.isLoading := false |} in
  let lst' := (Legacy.handleSubmit fetch lst).1 in
  trim (Legacy.message lst) <> []
  /\ Legacy.isLoading lst' = false
  /\ Legacy.error lst' <> None
  /\ Legacy.message lst' = js " hello ".
Proof.
  intros fetch lst lst'. split; [by vm_compute|].
  destruct (Legacy_turn_outcome fetch lst)
    as (_ & Hl & [(He & _) | (He & Hm & _)]);
    [by vm_compute | by vm_compute in He |].
  split; [exact Hl|]. split; [exact He | exact Hm].
Defined.

Lemma error_line_identifies_status_witness :
  let r1 := {| status := 500; text := inr []; json_body := inr JNull |} in
  let r2 := {| status := 502; text := inr []; json_body := inr JNull |} in
  let e1 := mkError (js "Server error: 500") in
  let e2 := mkError (js "Server error: 502") in
  (ok r1 = false /\ ok r2 = false
   /\ Agent.receive (inr r1) = inl e1 /\ Agent.receive (inr r2) = inl e2)
  /\ Error_message e1 <> Error_message e2.
Proof.
  intros r1 r2 e1 e2. split; [repeat split; reflexivity|].
  destruct (error_line_identifies_status r1 r2 e1 e2
              eq_refl eq_refl eq_refl eq_refl) as [Hiff _].
  intros H. apply Hiff in H. by vm_compute in H.
Defined.
